(** * Training plan tracker (app.py): session parsing, cell keys,
      calendar alignment, aggregation and persisted state.

    The Python module is embedded shallowly, function by function, under the
    names it uses in the source.

    Conventions of the embedding.
    - A Python [str] is a [string] whose characters are the code points below
      256; [lower_char], [is_space] and [is_digit] follow Python's tables on
      that range ([str.lower], [str.strip] / the [\s] class, the [\d] class).
    - A [datetime.date] is its proleptic Gregorian ordinal ([date.toordinal]),
      an integer; adding a [timedelta] of [k] days adds [k].  The dates of the
      program come from pandas timestamps and stay far below [date.max], whose
      overflow is not part of the model.
    - A Python [float] is the rational number it stands for: the development
      follows the arithmetic the code writes, not the rounding of binary64.
    - [st.session_state] and the dictionaries read from and written to
      [plan_state.json] are finite maps from strings to JSON-like values. *)

From Stdlib Require Import ZArith QArith Ascii String List Lia.
From Stdlib Require Import DecimalString DecimalNat.
From stdpp Require Import gmap strings list fin_maps.

Local Open Scope Z_scope.

(* ===================================================================== *)
(** * Strings *)
(* ===================================================================== *)

Module Str.

(** [str.lower] on one code point below 256: A-Z and the Latin-1 capitals
    (U+00C0 to U+00DE, the multiplication sign U+00D7 apart) move up by 32. *)
Definition lower_char (c : ascii) : ascii :=
  let n := N_of_ascii c in
  if ((65 <=? n) && (n <=? 90)
      || (192 <=? n) && (n <=? 222) && negb (n =? 215))%N
  then ascii_of_N (n + 32) else c.

(** Unicode white space below 256, as [str.strip] and [\s] see it. *)
Definition is_space (c : ascii) : bool :=
  let n := N_of_ascii c in
  ((9 <=? n) && (n <=? 13) || (28 <=? n) && (n <=? 32)
   || (n =? 133) || (n =? 160))%N.

(** Decimal digits below 256, the class [\d]. *)
Definition is_digit (c : ascii) : bool :=
  let n := N_of_ascii c in ((48 <=? n) && (n <=? 57))%N.

Fixpoint map (f : ascii -> ascii) (s : string) : string :=
  match s with
  | EmptyString => EmptyString
  | String c s' => String (f c) (map f s')
  end.

Fixpoint all (p : ascii -> bool) (s : string) : bool :=
  match s with
  | EmptyString => true
  | String c s' => p c && all p s'
  end.

(** [s.lower()] *)
Definition lower (s : string) : string := map lower_char s.

(** [s.replace(a, b)] for one-character [a] and [b]. *)
Definition replace (a b : ascii) (s : string) : string :=
  map (fun c => if Ascii.eqb c a then b else c) s.

(** [s.startswith(p)] *)
Fixpoint startswith (p s : string) : bool :=
  match p, s with
  | EmptyString, _ => true
  | String a p', String b s' => Ascii.eqb a b && startswith p' s'
  | String _ _, EmptyString => false
  end.

(** [p in s] *)
Fixpoint contains (p s : string) : bool :=
  startswith p s ||
  match s with
  | EmptyString => false
  | String _ s' => contains p s'
  end.

(** [s.lstrip()], [s.rstrip()], [s.strip()] *)
Fixpoint lstrip (s : string) : string :=
  match s with
  | String c s' => if is_space c then lstrip s' else s
  | EmptyString => EmptyString
  end.

Fixpoint rstrip (s : string) : string :=
  match s with
  | EmptyString => EmptyString
  | String c s' =>
      match rstrip s' with
      | EmptyString => if is_space c then EmptyString else String c EmptyString
      | r => String c r
      end
  end.

Definition strip (s : string) : string := rstrip (lstrip s).

(** [s.split(sep)] / [re.split] on a one-character literal. *)
Fixpoint split (sep : ascii) (s : string) : list string :=
  match s with
  | EmptyString => [EmptyString]
  | String c s' =>
      if Ascii.eqb c sep then EmptyString :: split sep s'
      else match split sep s' with
           | seg :: segs => String c seg :: segs
           | [] => [String c EmptyString]
           end
  end.

(** [s[:n]] *)
Fixpoint take (n : nat) (s : string) : string :=
  match n, s with
  | S n', String c s' => String c (take n' s')
  | _, _ => EmptyString
  end.

(** [str(n)] for a non-negative [int]. *)
Definition of_nat (n : nat) : string :=
  NilEmpty.string_of_uint (Nat.to_uint n).

End Str.

(* ===================================================================== *)
(** * Cell keys *)
(* ===================================================================== *)

(** [slug = session_col.lower().replace(" ", "_")] *)
Definition slug (session_col : string) : string :=
  Str.replace " "%char "_"%char (Str.lower session_col).

Definition completion_key (week_idx : nat) (session_col : string) : string :=
  "completed_" +:+ Str.of_nat week_idx +:+ "_" +:+ slug session_col.

Definition planned_key (week_idx : nat) (session_col : string) : string :=
  "planned_" +:+ Str.of_nat week_idx +:+ "_" +:+ slug session_col.

(** The two key functions differ in their literal prefix only. *)
Inductive prefix := Completed | Planned.

Definition prefix_str (p : prefix) : string :=
  match p with Completed => "completed" | Planned => "planned" end.

Definition key (p : prefix) (week_idx : nat) (session_col : string) : string :=
  match p with
  | Completed => completion_key week_idx session_col
  | Planned => planned_key week_idx session_col
  end.

(** [select_key = f"{p_key}_select"] *)
Definition select_key (week_idx : nat) (session_col : string) : string :=
  planned_key week_idx session_col +:+ "_select".

(* ===================================================================== *)
(** * Calendar *)
(* ===================================================================== *)

(** A date is its ordinal day number; [date + timedelta(days=k)] is [+ k]. *)
Abbreviation date := Z (only parsing).

(** [date.weekday()]: Monday is 0 and Sunday is 6.  Ordinal 1 (0001-01-01) is
    a Monday, hence the shift by 6. *)
Definition weekday (day : date) : Z := (day + 6) mod 7.

Definition align_to_monday (day : date) : date :=
  let offset := (7 - weekday day) mod 7 in
  day + offset.

(** Lines 155-157: [raw_week_starts] is the parsed "Week Commencing" column,
    one entry per row.  The script has stopped at line 145 when the table has
    no rows, which is [None] here. *)
Definition week_starts (raw_week_starts : list date) : option (list date) :=
  match raw_week_starts with
  | [] => None
  | first :: _ =>
      let base_start := align_to_monday first in
      Some ((fun idx => base_start + 7 * Z.of_nat idx)
              <$> seq 0 (length raw_week_starts))
  end.

(** Lines 168-170. [week_starts[0]] and [week_starts[-1]]. *)
Definition plan_start (week_starts : list date) : option date :=
  head week_starts.

Definition plan_end (week_starts : list date) : option date :=
  (fun d => d + 6) <$> last week_starts.

Definition plan_days (plan_start plan_end : date) : Z :=
  Z.max 1 (plan_end - plan_start + 1).

(** Lines 211-216. *)
Definition plan_progress_pct (plan_start plan_end today : date) : Q :=
  if today <=? plan_start then 0%Q
  else if today >=? plan_end then 100%Q
  else (inject_Z (today - plan_start)
        / inject_Z (plan_days plan_start plan_end) * 100)%Q.

Local Close Scope Z_scope.

(* ===================================================================== *)
(** * Python values, exceptions *)
(* ===================================================================== *)

(** The values that JSON decoding produces and that the session state
    holds. *)
#[warnings="-register-all"] Inductive value :=
| VNone
| VBool (b : bool)
| VInt (n : Z)
| VFloat (q : Q)
| VStr (s : string)
| VList (l : list value)
| VDict (d : gmap string value).

(** [bool(v)] *)
Definition truthy (v : value) : bool :=
  match v with
  | VNone => false
  | VBool b => b
  | VInt n => negb (n =? 0)%Z
  | VFloat q => negb (Qeq_bool q 0)
  | VStr s => negb (String.eqb s "")
  | VList l => match l with [] => false | _ => true end
  | VDict d => negb (Nat.eqb (size d) 0)
  end.

(** [v == n] for an [int] [n]: [True == 1] and [1.0 == 1] hold in Python. *)
Definition eq_int (v : value) (n : Z) : bool :=
  match v with
  | VBool b => (Z.b2z b =? n)%Z
  | VInt m => (m =? n)%Z
  | VFloat q => Qeq_bool q (inject_Z n)
  | _ => false
  end.

Inductive exn :=
| AttributeError
| IndexError
| UnicodeDecodeError
| ValueError.

Inductive result (A : Type) :=
| Ok (a : A)
| Raise (e : exn).
Arguments Ok {A} a.
Arguments Raise {A} e.

(** Sequencing of statements that may raise: [x ← r; k]. *)
#[global] Instance result_bind : MBind result := fun A B f r =>
  match r with
  | Ok a => f a
  | Raise e => Raise e
  end.

(* ===================================================================== *)
(** * Persisted state *)
(* ===================================================================== *)

Definition STATE_VERSION : Z := 1%Z.

(** What [STATE_PATH] holds, seen through [exists], [read_text] and
    [json.loads]. *)
Inductive file :=
| Absent                (* STATE_PATH.exists() is False *)
| Unreadable            (* read_text raises OSError *)
| NotUtf8               (* read_text raises UnicodeDecodeError *)
| NotJson               (* json.loads raises JSONDecodeError *)
| Json (data : value).  (* the text decodes to the document [data] *)

(** [data.get(k)] and [data.get(k, default)]: only a dict has [get]. *)
Definition get (data : value) (k : string) (default : value) : result value :=
  match data with
  | VDict d => Ok (match d !! k with Some v => v | None => default end)
  | _ => Raise AttributeError
  end.

Definition load_state (f : file) : result value :=
  match f with
  | Absent => Ok (VDict ∅)
  | Unreadable | NotJson => Ok (VDict ∅)
  | NotUtf8 => Raise UnicodeDecodeError
  | Json data =>
      version ← get data "version" VNone;
      if negb (eq_int version STATE_VERSION) then Ok (VDict ∅)
      else get data "state" (VDict ∅)
  end.

(** The envelope built by [save_state]; [saved_at] is
    [date.today().isoformat()]. *)
Definition payload (saved_at : string) (state : gmap string value) : value :=
  VDict (<["version" := VInt STATE_VERSION]>
         (<["saved_at" := VStr saved_at]>
          (<["state" := VDict state]> ∅))).

(** [save_state]: the new file and whether the warning was shown.
    [writable] is false when [write_text] raises [OSError]. *)
Definition save_state (saved_at : string) (writable : bool)
    (state : gmap string value) (f : file) : file * bool :=
  if writable then (Json (payload saved_at state), false) else (f, true).

(** Lines 161-166: restoring the saved state into the session state. *)
Definition restore_item (k : string) (v : value)
    (session_state : gmap string value) : gmap string value :=
  match session_state !! k with
  | None => <[k := v]> session_state
  | Some _ => session_state
  end.

Definition restore (f : file) (session_state : gmap string value)
    : result (gmap string value) :=
  match session_state !! "state_loaded" with
  | Some _ => Ok session_state
  | None =>
      restored_state ← load_state f;
      match restored_state with
      | VDict d =>
          Ok (<["state_loaded" := VBool true]>
              (map_fold restore_item session_state d))
      | _ => Raise AttributeError
      end
  end.

(** Lines 305-313. *)
Definition persist_cell (session_state : gmap string value) (week_idx : nat)
    (persisted_state : gmap string value) (session_col : string)
    : gmap string value :=
  let c_key := completion_key week_idx session_col in
  let persisted_state :=
    match session_state !! c_key with
    | Some v => <[c_key := VBool (truthy v)]> persisted_state
    | None => persisted_state
    end in
  let p_key := planned_key week_idx session_col in
  match session_state !! p_key with
  | Some v => <[p_key := v]> persisted_state
  | None => persisted_state
  end.

Definition persisted_state (n_rows : nat) (session_cols : list string)
    (session_state : gmap string value) : gmap string value :=
  fold_left
    (fun acc week_idx =>
       fold_left (persist_cell session_state week_idx) session_cols acc)
    (seq 0 n_rows) ∅.

(** Line 138. *)
Definition session_columns (columns : list string) : list string :=
  List.filter (fun col => Str.startswith "session" (Str.lower col)) columns.

(* ===================================================================== *)
(** * Regular expressions: the fragment of [re] the parser uses *)
(* ===================================================================== *)

Module Re.

(** Patterns.  Repetition applies to character classes, which is all the
    two patterns of the source need; groups are numbered in the order in
    which they close. *)
Inductive regex :=
| Lit (c : ascii)                (* a literal character *)
| Class (p : ascii -> bool)      (* \d, \s *)
| Seq (r1 r2 : regex)            (* r1 r2 *)
| Opt (r : regex)                (* (?:r)?  greedy *)
| Star (p : ascii -> bool)       (* p*      greedy *)
| Plus (p : ascii -> bool)       (* p+      greedy *)
| Group (r : regex).             (* (r) *)

Section Matcher.
Context {R : Type}.
Implicit Type k : string -> list string -> option R.

(** Greedy repetition: the longest run first, then shorter ones. *)
Fixpoint star (p : ascii -> bool) (s : string) (gs : list string) k
    : option R :=
  match s with
  | String c s' =>
      if p c then
        match star p s' gs k with
        | Some x => Some x
        | None => k s gs
        end
      else k s gs
  | EmptyString => k s gs
  end.

(** The backtracking matcher in continuation-passing style: [s] is the
    input still to read, [gs] the groups closed so far, [k] the rest of
    the pattern. *)
Fixpoint bt (r : regex) (s : string) (gs : list string) k : option R :=
  match r with
  | Lit c =>
      match s with
      | String x s' => if Ascii.eqb x c then k s' gs else None
      | EmptyString => None
      end
  | Class p =>
      match s with
      | String x s' => if p x then k s' gs else None
      | EmptyString => None
      end
  | Seq r1 r2 => bt r1 s gs (fun s' gs' => bt r2 s' gs' k)
  | Opt r =>
      match bt r s gs k with
      | Some x => Some x
      | None => k s gs
      end
  | Star p => star p s gs k
  | Plus p =>
      match s with
      | String x s' => if p x then star p s' gs k else None
      | EmptyString => None
      end
  | Group r =>
      bt r s gs (fun s' gs' =>
        k s' (gs' ++ [Str.take (String.length s - String.length s') s]))
  end.
End Matcher.

(** [pattern.match(s)]: the groups and the length of the match at the
    start of [s]. *)
Definition match_at (r : regex) (s : string) : option (list string * nat) :=
  bt r s [] (fun s' gs => Some (gs, String.length s - String.length s')).

(** [re.search(r, s)]: the groups of the leftmost match. *)
Fixpoint search (r : regex) (s : string) : option (list string) :=
  match match_at r s with
  | Some (gs, _) => Some gs
  | None =>
      match s with
      | String _ s' => search r s'
      | EmptyString => None
      end
  end.

(** [re.findall(r, s)]: the groups of the successive matches, scanning from
    left to right; after a match of [len] characters the scan resumes [len]
    characters further ([skip] counts the characters still covered by the
    last match). *)
Fixpoint findall_from (skip : nat) (r : regex) (s : string)
    : list (list string) :=
  match skip with
  | S skip' =>
      match s with
      | String _ s' => findall_from skip' r s'
      | EmptyString => []
      end
  | O =>
      match match_at r s with
      | Some (gs, len) =>
          gs :: match s with
                | String _ s' => findall_from (len - 1) r s'
                | EmptyString => []
                end
      | None =>
          match s with
          | String _ s' => findall_from 0 r s'
          | EmptyString => []
          end
      end
  end.

Definition findall (r : regex) (s : string) : list (list string) :=
  findall_from 0 r s.

(** [m.group(n)], [n] from 1. *)
Definition group (n : nat) (gs : list string) : string :=
  nth (n - 1) gs EmptyString.

End Re.

Infix ">>" := Re.Seq (at level 60, right associativity).

(* ===================================================================== *)
(** * Text distance parser *)
(* ===================================================================== *)

(** [\d+(?:\.\d+)?] *)
Definition number_re : Re.regex :=
  Re.Plus Str.is_digit >> Re.Opt (Re.Lit "." >> Re.Plus Str.is_digit).

(** [(\d+(?:\.\d+)?)\s*-\s*(\d+(?:\.\d+)?)\s*km] *)
Definition range_re : Re.regex :=
  Re.Group number_re >> Re.Star Str.is_space >> Re.Lit "-" >>
  Re.Star Str.is_space >> Re.Group number_re >> Re.Star Str.is_space >>
  Re.Lit "k" >> Re.Lit "m".

(** [(\d+(?:\.\d+)?)\s*km] *)
Definition km_re : Re.regex :=
  Re.Group number_re >> Re.Star Str.is_space >> Re.Lit "k" >> Re.Lit "m".

(** The digits before and after the first dot of a literal. *)
Fixpoint int_part (s : string) : string :=
  match s with
  | String c s' =>
      if Ascii.eqb c "." then EmptyString else String c (int_part s')
  | EmptyString => EmptyString
  end.

Fixpoint frac_part (s : string) : option string :=
  match s with
  | String c s' => if Ascii.eqb c "." then Some s' else frac_part s'
  | EmptyString => None
  end.

Definition digit_value (c : ascii) : Z := (Z.of_N (N_of_ascii c) - 48)%Z.

Fixpoint digits_value (acc : Z) (s : string) : Z :=
  match s with
  | String c s' => digits_value (10 * acc + digit_value c)%Z s'
  | EmptyString => acc
  end.

Definition all_digits (s : string) : bool :=
  negb (String.eqb s "") && Str.all Str.is_digit s.

(** The literals [digits] and [digits.digits], the only arguments [float]
    receives in this program. *)
Definition is_decimal (s : string) : bool :=
  all_digits (int_part s) &&
  match frac_part s with
  | Some f => all_digits f
  | None => true
  end.

Definition decimal_value (s : string) : Q :=
  match frac_part s with
  | Some f =>
      (inject_Z (digits_value 0 (int_part s))
       + inject_Z (digits_value 0 f)
         / inject_Z (10 ^ Z.of_nat (String.length f)))%Q
  | None => inject_Z (digits_value 0 (int_part s))
  end.

(** [float(s)] on decimal literals; any other argument is reported as
    [ValueError]. *)
Definition float (s : string) : result Q :=
  if is_decimal s then Ok (decimal_value s) else Raise ValueError.

(** [[f(x) for x in l]] where [f] may raise. *)
Fixpoint for_list {A B} (f : A -> result B) (l : list A) : result (list B) :=
  match l with
  | [] => Ok []
  | x :: l' => y ← f x; ys ← for_list f l'; Ok (y :: ys)
  end.

(** [for x in l: acc = f(acc, x)] where [f] may raise. *)
Fixpoint for_each {A S} (f : S -> A -> result S) (l : list A) (acc : S)
    : result S :=
  match l with
  | [] => Ok acc
  | x :: l' => acc' ← f acc x; for_each f l' acc'
  end.

(** [sum(values)] *)
Definition sum (values : list Q) : Q := fold_left Qplus values 0%Q.

Definition extract_km (segment : string) : result Q :=
  match Re.search range_re segment with
  | Some range_match =>
      low ← float (Re.group 1 range_match);
      high ← float (Re.group 2 range_match);
      Ok ((low + high) / 2)%Q
  | None =>
      values ← for_list (fun m => float (Re.group 1 m))
                        (Re.findall km_re segment);
      Ok (sum values)
  end.

Definition SWIM_DISTANCE_KM : Q := 2%Q.

Record distances := { swim : Q; bike : Q; run : Q }.

(** The body of the loop of [session_distances]. *)
Definition segment_step (d : distances) (segment : string) : result distances :=
  let segment := Str.strip segment in
  if String.eqb segment "" then Ok d
  else
    let d :=
      if Str.contains "swim" segment
      then {| swim := (swim d + SWIM_DISTANCE_KM)%Q;
              bike := bike d; run := run d |}
      else d in
    d ← (if Str.contains "bike" segment || Str.contains "cycle" segment
         then km ← extract_km segment;
              Ok {| swim := swim d; bike := (bike d + km)%Q; run := run d |}
         else Ok d);
    if Str.contains "run" segment
    then km ← extract_km segment;
         Ok {| swim := swim d; bike := bike d; run := (run d + km)%Q |}
    else Ok d.

Definition session_distances (session_text : string) : result distances :=
  let text := Str.lower session_text in
  for_each segment_step (Str.split "+" text)
           {| swim := 0%Q; bike := 0%Q; run := 0%Q |}.

(* ===================================================================== *)
(** * Aggregation *)
(* ===================================================================== *)

(** One row of the plan: the cells that hold text, by column name (a missing
    or NaN cell has no entry). *)
Abbreviation row := (gmap string string) (only parsing).

Record stats := {
  completed_count : nat;
  missed_count : nat;
  swim_km : Q;
  bike_km : Q;
  run_km : Q;
  gym_sessions : nat
}.

Definition stats0 : stats :=
  {| completed_count := 0; missed_count := 0;
     swim_km := 0%Q; bike_km := 0%Q; run_km := 0%Q; gym_sessions := 0 |}.

(** The text of a cell, [str(row[session_col])], and the empty string for a
    cell that is missing or NaN. *)
Definition text_of (r : row) (session_col : string) : string :=
  match r !! session_col with
  | Some text => text
  | None => ""
  end.

(** Lines 193-195.  When the header holds the name of the column more than
    once (two names that the strip of line 132 makes equal),
    [row[session_col]] is a Series, not a cell, and [not pd.isna(...)] raises
    [ValueError].  [session_cols] keeps every occurrence of a session name of
    the header, so the occurrences are counted there. *)
Definition session_text (session_cols : list string) (r : row)
    (session_col : string) : result string :=
  if 1 <? count_occ String.string_dec session_cols session_col
  then Raise ValueError
  else Ok (text_of r session_col).

(** [st.session_state.get(c_key, False)] as a condition. *)
Definition completed (session_state : gmap string value) (c_key : string)
    : bool :=
  match session_state !! c_key with
  | Some v => truthy v
  | None => false
  end.

(** Lines 193-207: the body of the inner loop. *)
Definition count_cell (session_state : gmap string value) (today : date)
    (session_cols : list string) (week_idx : nat) (week_end : date) (r : row)
    (acc : stats) (session_col : string) : result stats :=
  text ← session_text session_cols r session_col;
  let c_key := completion_key week_idx session_col in
  if completed session_state c_key then
    d ← session_distances text;
    Ok {| completed_count := completed_count acc + 1;
          missed_count := missed_count acc;
          swim_km := (swim_km acc + swim d)%Q;
          bike_km := (bike_km acc + bike d)%Q;
          run_km := (run_km acc + run d)%Q;
          gym_sessions :=
            if Str.contains "gym" (Str.lower text)
            then gym_sessions acc + 1 else gym_sessions acc |}
  else if (week_end <? today)%Z then
    Ok {| completed_count := completed_count acc;
          missed_count := missed_count acc + 1;
          swim_km := swim_km acc; bike_km := bike_km acc;
          run_km := run_km acc; gym_sessions := gym_sessions acc |}
  else Ok acc.

(** Lines 189-192: the body of the outer loop; [week_starts[week_idx]]
    raises [IndexError] out of range. *)
Definition count_row (session_state : gmap string value) (today : date)
    (week_starts : list date) (session_cols : list string)
    (acc : stats) (indexed_row : nat * row) : result stats :=
  let '(week_idx, r) := indexed_row in
  match week_starts !! week_idx with
  | None => Raise IndexError
  | Some week_start =>
      let week_end := (week_start + 6)%Z in
      for_each
        (count_cell session_state today session_cols week_idx week_end r)
        session_cols acc
  end.

(** [plan_df.iterrows()]: the rows with their index. *)
Definition iterrows (rows : list row) : list (nat * row) :=
  combine (seq 0 (length rows)) rows.

(** Lines 182-207. *)
Definition aggregate (rows : list row) (session_cols : list string)
    (week_starts : list date) (session_state : gmap string value)
    (today : date) : result stats :=
  for_each (count_row session_state today week_starts session_cols)
           (iterrows rows) stats0.

(* ===================================================================== *)
(** * Vocabulary of the specification *)
(* ===================================================================== *)

(** Column names that differ by case or by spaces against underscores. *)
Inductive char_alike : ascii -> ascii -> Prop :=
| alike_case x y : Str.lower_char x = Str.lower_char y -> char_alike x y
| alike_space_underscore : char_alike " " "_"
| alike_underscore_space : char_alike "_" " ".

Inductive alike : string -> string -> Prop :=
| alike_nil : alike "" ""
| alike_cons x y s t :
    char_alike x y -> alike s t -> alike (String x s) (String y t).

(** The split of the merged state of the specification's [deserialize]: the
    entries whose key starts with [completed_], and those whose key starts
    with [planned_].  The source keeps the merged dictionary and reads it
    through [completion_key] and [planned_key]. *)
Definition completion_part (state : gmap string value) : gmap string value :=
  filter (fun kv => Str.startswith "completed_" kv.1 = true) state.

Definition planned_part (state : gmap string value) : gmap string value :=
  filter (fun kv => Str.startswith "planned_" kv.1 = true) state.

(** The keys of the grid of a plan with [n_rows] rows and the session columns
    [session_cols]. *)
Definition grid_key (n_rows : nat) (session_cols : list string) (k : string)
    : Prop :=
  exists week_idx session_col,
    week_idx < n_rows /\ session_col ∈ session_cols /\
    (k = completion_key week_idx session_col \/
     k = planned_key week_idx session_col).

(** What a save stores under a grid key whose session-state value is [v]:
    line 310 coerces completion flags with [bool], line 313 copies planned
    days. *)
Definition persist_value (k : string) (v : value) : value :=
  if Str.startswith "completed_" k then VBool (truthy v) else v.

(** ** What the patterns denote *)

(** [matches r u gs]: the pattern [r] matches the whole of [u], and [gs] are
    the texts of the groups of [r], in the order in which they close. *)
Inductive matches : Re.regex -> string -> list string -> Prop :=
| matches_lit c : matches (Re.Lit c) (String c "") []
| matches_class p c : p c = true -> matches (Re.Class p) (String c "") []
| matches_seq r1 r2 u1 u2 g1 g2 :
    matches r1 u1 g1 -> matches r2 u2 g2 ->
    matches (Re.Seq r1 r2) (u1 +:+ u2) (g1 ++ g2)
| matches_opt_some r u g : matches r u g -> matches (Re.Opt r) u g
| matches_opt_none r : matches (Re.Opt r) "" []
| matches_star p u : Str.all p u = true -> matches (Re.Star p) u []
| matches_plus p u :
    u <> "" -> Str.all p u = true -> matches (Re.Plus p) u []
| matches_group r u g : matches r u g -> matches (Re.Group r) u (g ++ [u]).

(** A non-empty run of digits, a run of white space. *)
Definition digits (s : string) : Prop :=
  s <> "" /\ Str.all Str.is_digit s = true.

Definition spaces (s : string) : Prop := Str.all Str.is_space s = true.

(** [head_not p x]: [x] does not start with a character of the class [p]. *)
Definition head_not (p : ascii -> bool) (x : string) : Prop :=
  match x with
  | String c _ => p c = false
  | EmptyString => True
  end.

(** A number as the segments write it: digits, or digits, a dot, digits. *)
Inductive number : string -> Prop :=
| number_int i : digits i -> number i
| number_frac i f : digits i -> digits f -> number (i +:+ "." +:+ f).

(** [range_at s lo hi]: [s] starts with the range [lo]-[hi]km, white space
    allowed around the dash and before the unit. *)
Definition range_at (s lo hi : string) : Prop :=
  exists w1 w2 w3 rest,
    number lo /\ number hi /\ spaces w1 /\ spaces w2 /\ spaces w3 /\
    s = lo +:+ w1 +:+ "-" +:+ w2 +:+ hi +:+ w3 +:+ "km" +:+ rest.

(** [km_at s lo rest]: [s] starts with [lo]km, white space allowed before
    the unit, and goes on with [rest]. *)
Definition km_at (s lo rest : string) : Prop :=
  exists w, number lo /\ spaces w /\ s = lo +:+ w +:+ "km" +:+ rest.

(** A range, or a distance, occurs somewhere in the segment. *)
Definition range_occurs (segment : string) : Prop :=
  exists pre s lo hi, segment = pre +:+ s /\ range_at s lo hi.

Definition km_occurs (segment : string) : Prop :=
  exists pre s lo rest, segment = pre +:+ s /\ km_at s lo rest.

(** [km_scan s los]: reading [s] from left to right, [los] are the numbers of
    the successive distances: a position where no distance starts is passed
    over, a distance is taken whole and the reading goes on behind it. *)
Inductive km_scan : string -> list string -> Prop :=
| km_scan_end : km_scan "" []
| km_scan_skip c s los :
    (forall lo rest, ~ km_at (String c s) lo rest) ->
    km_scan s los -> km_scan (String c s) los
| km_scan_hit s lo rest los :
    km_at s lo rest -> km_scan rest los -> km_scan s (lo :: los).

(** ** Segments and cells *)

(** The segments the parser looks at: the pieces of the lowercased text
    between plus signs, trimmed, the blank ones left out. *)
Definition segments (session_text : string) : list string :=
  List.filter (fun seg => negb (String.eqb seg ""))
    (List.map Str.strip (Str.split "+" (Str.lower session_text))).

(** The kilometres of a segment and the distances of a session text, as
    numbers ([extract_km] and [session_distances] never raise). *)
Definition km_of (segment : string) : Q :=
  match extract_km segment with
  | Ok km => km
  | Raise _ => 0%Q
  end.

Definition distances_of (session_text : string) : distances :=
  match session_distances session_text with
  | Ok d => d
  | Raise _ => {| swim := 0%Q; bike := 0%Q; run := 0%Q |}
  end.

(** Adding [x] to [acc] when [flag] holds, leaving [acc] alone otherwise. *)
Definition credit (flag : bool) (acc x : Q) : Q :=
  if flag then (acc + x)%Q else acc.

Definition has_swim (segment : string) : bool := Str.contains "swim" segment.

Definition has_bike (segment : string) : bool :=
  Str.contains "bike" segment || Str.contains "cycle" segment.

Definition has_run (segment : string) : bool := Str.contains "run" segment.

(** A cell of the plan: week index, last day of its week, row and column. *)
Record cell := {
  cell_week : nat;
  cell_week_end : Z;
  cell_row : gmap string string;
  cell_col : string
}.

Definition cell_text (c : cell) : string :=
  text_of (cell_row c) (cell_col c).

(** The cells in the order in which the loops of lines 189-192 visit them. *)
Definition row_cells (week_starts : list Z) (session_cols : list string)
    (indexed_row : nat * gmap string string) : list cell :=
  match week_starts !! indexed_row.1 with
  | Some week_start =>
      List.map (fun col => {| cell_week := indexed_row.1;
                              cell_week_end := (week_start + 6)%Z;
                              cell_row := indexed_row.2;
                              cell_col := col |}) session_cols
  | None => []
  end.

Definition plan_cells (rows : list (gmap string string))
    (session_cols : list string) (week_starts : list Z) : list cell :=
  flat_map (row_cells week_starts session_cols) (iterrows rows).

(** The three ways a cell can count. *)
Inductive cell_class := Done | Missed | Pending.

Definition classify (session_state : gmap string value) (today : Z)
    (c : cell) : cell_class :=
  if completed session_state (completion_key (cell_week c) (cell_col c))
  then Done
  else if (cell_week_end c <? today)%Z then Missed
  else Pending.

Definition is_done session_state today (c : cell) : bool :=
  match classify session_state today c with Done => true | _ => false end.

Definition is_missed session_state today (c : cell) : bool :=
  match classify session_state today c with Missed => true | _ => false end.

Definition is_pending session_state today (c : cell) : bool :=
  match classify session_state today c with Pending => true | _ => false end.

Definition is_gym (c : cell) : bool :=
  Str.contains "gym" (Str.lower (cell_text c)).

(* ===================================================================== *)
(** * The rest of the script *)
(* ===================================================================== *)

(** ** Start-up checks, lines 127-158 *)

(** The five places where the script reports an error and stops. *)
Inductive stop :=
| CsvNotFound          (* line 129 *)
| NoWeekCommencing     (* line 136 *)
| NoSessionColumn      (* line 141 *)
| NoRows               (* line 145 *)
| BadDate.             (* line 153 *)

(** Lines 147-153: the "Week Commencing" column after
    [pd.to_datetime(..., errors="coerce")], [None] standing for NaT; any NaT
    stops the script. *)
Fixpoint parsed_dates (column : list (option Z)) : option (list Z) :=
  match column with
  | [] => Some []
  | Some d :: rest =>
      match parsed_dates rest with
      | Some ds => Some (d :: ds)
      | None => None
      end
  | None :: _ => None
  end.

(** Lines 127-158: from the header of the table and its date column to the
    session columns and the week starts, or to the error shown. *)
Definition startup (csv_exists : bool) (columns : list string)
    (week_commencing : list (option Z)) : stop + (list string * list Z) :=
  if negb csv_exists then inl CsvNotFound
  else
    let columns := List.map Str.strip columns in
    if negb (existsb (String.eqb "Week Commencing") columns)
    then inl NoWeekCommencing
    else
      let session_cols := session_columns columns in
      match session_cols, week_commencing with
      | [], _ => inl NoSessionColumn
      | _ :: _, [] => inl NoRows
      | _ :: _, _ :: _ =>
          match parsed_dates week_commencing with
          | None => inl BadDate
          | Some raw_week_starts =>
              match week_starts raw_week_starts with
              | Some ws => inr (session_cols, ws)
              | None => inl NoRows
              end
          end
      end.

(** ** Overview figures, lines 172-218 *)

(** Lines 173-176: the loop over [enumerate(week_starts)], [None] when it
    ends without [break]. *)
Fixpoint find_week (today : Z) (week_starts : list Z) (idx : nat)
    : option nat :=
  match week_starts with
  | [] => None
  | week_start :: rest =>
      if ((week_start <=? today) && (today <=? week_start + 6))%Z
      then Some idx
      else find_week today rest (S idx)
  end.

(** Lines 172-179. *)
Definition current_week_idx (week_starts : list Z) (plan_end today : Z) : Z :=
  match find_week today week_starts 0 with
  | Some idx => Z.of_nat idx
  | None =>
      if (today >? plan_end)%Z then (Z.of_nat (length week_starts) - 1)%Z
      else 0%Z
  end.

(** Line 181. *)
Definition total_sessions (n_rows : nat) (session_cols : list string) : nat :=
  n_rows * length session_cols.

(** Lines 209-210. *)
Definition completed_pct (completed_count total_sessions : nat) : Q :=
  if Nat.eqb total_sessions 0 then 0%Q
  else (inject_Z (Z.of_nat completed_count)
        / inject_Z (Z.of_nat total_sessions) * 100)%Q.

Definition missed_pct (missed_count total_sessions : nat) : Q :=
  if Nat.eqb total_sessions 0 then 0%Q
  else (inject_Z (Z.of_nat missed_count)
        / inject_Z (Z.of_nat total_sessions) * 100)%Q.

(** Line 218. *)
Definition days_remaining (plan_end today : Z) : Z :=
  Z.max 0 (plan_end - today).

(** ** The table, lines 243-303 *)

(** Lines 266-268. *)
Definition status_class (session_state : gmap string value) (today : Z)
    (week_idx : nat) (week_end : Z) (session_col : string) : string :=
  let is_completed :=
    completed session_state (completion_key week_idx session_col) in
  let is_missed := negb is_completed && (week_end <? today)%Z in
  if is_completed then "completed"
  else if is_missed then "missed" else "pending".

Definition DAY_NAMES : list string :=
  ["Mon"; "Tue"; "Wed"; "Thu"; "Fri"; "Sat"; "Sun"].

(** [l.index(x)]: the first position of [x]; [None] is [ValueError]. *)
Fixpoint index {A} `{EqDecision A} (x : A) (l : list A) : option nat :=
  match l with
  | [] => None
  | y :: l' => if decide (x = y) then Some 0 else S <$> index x l'
  end.

(** Line 256. *)
Definition week_dates (week_start : Z) : list Z :=
  (fun i => (week_start + Z.of_nat i)%Z) <$> seq 0 7.

Section Labels.

(** [date.isoformat] and [date.fromisoformat] ([None] is its [ValueError])
    belong to the standard library and are left open. *)
Variable isoformat : Z -> string.
Variable fromisoformat : string -> option Z.

(** Lines 23-24; the weekday is never negative, so the index counts from
    the front. *)
Definition date_label (day : Z) : result string :=
  match DAY_NAMES !! Z.to_nat (weekday day) with
  | Some name => Ok (name +:+ " " +:+ isoformat day)
  | None => Raise IndexError
  end.

(** Line 257. *)
Definition date_options (week_start : Z) : result (list string) :=
  labels ← for_list date_label (week_dates week_start);
  Ok ("Unplanned" :: labels).

(** Lines 277-285, from [existing_iso = st.session_state.get(p_key)].
    [fromisoformat] raises [TypeError] on a value that is not a string, and
    only [ValueError] is caught: that is [None] here. *)
Definition default_index (week_dates : list Z) (existing_iso : option value)
    : option nat :=
  match existing_iso with
  | None => Some 0
  | Some v =>
      if truthy v then
        match v with
        | VStr s =>
            match fromisoformat s with
            | Some existing_date =>
                match index existing_date week_dates with
                | Some i => Some (i + 1)
                | None => Some 0
                end
            | None => Some 0
            end
        | _ => None
        end
      else Some 0
  end.

(** Lines 297-301, [selected_label] being what the selectbox returned.
    [week_dates[i - 1]] reads the last date when [i] is 0. *)
Definition apply_selection (p_key : string) (week_dates : list Z)
    (date_options : list string) (selected_label : string)
    (session_state : gmap string value) : result (gmap string value) :=
  if String.eqb selected_label "Unplanned"
  then Ok (delete p_key session_state)
  else
    match index selected_label date_options with
    | None => Raise ValueError
    | Some i =>
        match (match i with
               | O => last week_dates
               | S j => week_dates !! j
               end) with
        | Some chosen_date =>
            Ok (<[p_key := VStr (isoformat chosen_date)]> session_state)
        | None => Raise IndexError
        end
    end.

End Labels.

(** ** The end of a run, lines 305-316 *)

Definition save_on_exit (saved_at : string) (writable : bool)
    (n_rows : nat) (session_cols : list string)
    (session_state : gmap string value) (f : file) : file * bool :=
  match session_state !! "state_loaded" with
  | Some v =>
      if truthy v
      then save_state saved_at writable
             (persisted_state n_rows session_cols session_state) f
      else (f, false)
  | None => (f, false)
  end.

(* ===================================================================== *)
(** * Properties of the calendar *)
(* ===================================================================== *)

Section Calendar.
Local Open Scope Z_scope.

Lemma weekday_range (d : date) : 0 <= weekday d < 7.
Proof. unfold weekday. apply Z.mod_pos_bound. lia. Qed.

Lemma weekday_add_7 (d : date) (k : Z) : weekday (d + 7 * k) = weekday d.
Proof.
  unfold weekday.
  replace (d + 7 * k + 6) with (d + 6 + k * 7) by lia.
  apply Z.mod_add. lia.
Qed.

Lemma offset_cases (d : date) :
  (weekday d = 0 /\ (7 - weekday d) mod 7 = 0) \/
  (0 < weekday d /\ (7 - weekday d) mod 7 = 7 - weekday d).
Proof.
  pose proof (weekday_range d) as Hr.
  destruct (Z.eq_dec (weekday d) 0) as [-> | Hne].
  - left. split; reflexivity.
  - right. split; [lia |]. apply Z.mod_small. lia.
Qed.

(** C5.  [align_to_monday d] is [d] plus [(7 - weekday d) mod 7] days; the
    result is a Monday; a Monday is returned unchanged; any other day moves
    strictly forward, by at most six days, so the result is the following
    Monday and never an earlier date. *)
Theorem align_to_monday_forward (d : date) :
  align_to_monday d = d + (7 - weekday d) mod 7 /\
  weekday (align_to_monday d) = 0 /\
  (weekday d = 0 -> align_to_monday d = d) /\
  (weekday d <> 0 -> d < align_to_monday d <= d + 6) /\
  d <= align_to_monday d.
Proof.
  unfold align_to_monday.
  pose proof (weekday_range d) as Hr.
  split; [reflexivity |].
  destruct (offset_cases d) as [[H0 ->] | [Hpos ->]].
  - rewrite Z.add_0_r. repeat split; intros; try lia.
  - repeat split; intros; try lia.
    unfold weekday in *.
    replace (d + (7 - (d + 6) mod 7) + 6) with (d + 6 - (d + 6) mod 7 + 1 * 7)
      by lia.
    rewrite Z.mod_add by lia.
    rewrite Zminus_mod, Z.mod_mod, Z.sub_diag by lia. reflexivity.
Qed.

Lemma week_starts_cons (first : date) (rest : list date) :
  week_starts (first :: rest) =
  Some ((fun idx => align_to_monday first + 7 * Z.of_nat idx)
          <$> seq 0 (length (first :: rest))).
Proof. reflexivity. Qed.

Lemma week_starts_length (raw ws : list date) :
  week_starts raw = Some ws -> length ws = length raw.
Proof.
  destruct raw as [| first rest]; [discriminate |].
  rewrite week_starts_cons. intros H.
  assert (Hws : ws = (fun idx => align_to_monday first + 7 * Z.of_nat idx)
                       <$> seq 0 (length (first :: rest))) by congruence.
  rewrite Hws. now rewrite length_fmap, length_seq.
Qed.

Lemma week_starts_lookup (first : date) (rest ws : list date) (i : nat) :
  week_starts (first :: rest) = Some ws ->
  (i < length (first :: rest))%nat ->
  ws !! i = Some (align_to_monday first + 7 * Z.of_nat i).
Proof.
  rewrite week_starts_cons. intros H Hi.
  assert (Hws : ws = (fun idx => align_to_monday first + 7 * Z.of_nat idx)
                       <$> seq 0 (length (first :: rest))) by congruence.
  rewrite Hws, list_lookup_fmap.
  rewrite lookup_seq_lt by exact Hi. reflexivity.
Qed.

(** C6.  For a plan of [n] rows whose first week-commencing date is [A]
    (whatever the dates [rest] of the later rows), the derived sequence
    exists, has length [n], its element [i] is [align_to_monday A + 7 * i]
    for every [i < n], consecutive elements are 7 days apart, and a plan
    with the same first date and the same number of rows yields the same
    sequence. *)
Theorem week_starts_spec (A : date) (rest : list date) :
  exists ws,
    week_starts (A :: rest) = Some ws /\
    length ws = length (A :: rest) /\
    (forall i, (i < length (A :: rest))%nat ->
       ws !! i = Some (align_to_monday A + 7 * Z.of_nat i)) /\
    (forall i a b, ws !! i = Some a -> ws !! S i = Some b -> b - a = 7) /\
    (forall rest', length rest' = length rest ->
       week_starts (A :: rest') = Some ws).
Proof.
  destruct (week_starts (A :: rest)) as [ws |] eqn:Hws; [| discriminate].
  exists ws.
  pose proof (week_starts_length _ _ Hws) as Hlen.
  assert (Hnth : forall i, (i < length (A :: rest))%nat ->
            ws !! i = Some (align_to_monday A + 7 * Z.of_nat i)).
  { intros i Hi. eapply week_starts_lookup; eauto. }
  repeat split; auto.
  - intros i a b Ha Hb.
    assert (Hi : (S i < length (A :: rest))%nat).
    { rewrite <- Hlen. eapply lookup_lt_Some; eauto. }
    rewrite Hnth in Ha by lia. rewrite Hnth in Hb by lia.
    injection Ha as <-. injection Hb as <-. lia.
  - intros rest' Hlen'. rewrite <- Hws. rewrite !week_starts_cons.
    cbn [length]. now rewrite Hlen'.
Qed.

(** The value of the last branch of [plan_progress_pct]. *)
Lemma ratio_monotone (a b p : Z) :
  0 < p -> a <= b ->
  (inject_Z a / inject_Z p * 100 <= inject_Z b / inject_Z p * 100)%Q.
Proof.
  intros Hp Hab.
  apply Qmult_le_compat_r; [| discriminate].
  unfold Qdiv. apply Qmult_le_compat_r.
  - now rewrite <- Zle_Qle.
  - apply Qinv_le_0_compat. change 0%Q with (inject_Z 0).
    rewrite <- Zle_Qle. lia.
Qed.

Lemma ratio_zero (p : Z) : (inject_Z 0 / inject_Z p * 100 == 0)%Q.
Proof. unfold Qdiv. now rewrite !Qmult_0_l. Qed.

Lemma ratio_full (p : Z) : 0 < p -> (inject_Z p / inject_Z p * 100 == 100)%Q.
Proof.
  intros Hp. unfold Qdiv. rewrite Qmult_inv_r.
  - reflexivity.
  - change 0%Q with (inject_Z 0). rewrite inject_Z_injective. lia.
Qed.

Lemma plan_days_pos (s e : date) : 0 < plan_days s e.
Proof. unfold plan_days. lia. Qed.

Lemma plan_days_span (s e : date) : s <= e -> plan_days s e = e - s + 1.
Proof. unfold plan_days. lia. Qed.

Lemma plan_progress_pct_bounds (s e t : date) :
  (0 <= plan_progress_pct s e t <= 100)%Q.
Proof.
  unfold plan_progress_pct.
  destruct (Z.leb_spec t s) as [Hts | Hts]; [split; discriminate |].
  destruct (Z.geb_spec t e) as [Hte | Hte]; [split; discriminate |].
  pose proof (plan_days_pos s e) as Hp.
  split.
  - eapply Qle_trans; [| apply (ratio_monotone 0 (t - s)); [exact Hp | lia]].
    rewrite ratio_zero. apply Qle_refl.
  - eapply Qle_trans;
      [apply (ratio_monotone (t - s) (plan_days s e)); [exact Hp |] |].
    + rewrite plan_days_span by lia. lia.
    + rewrite ratio_full by exact Hp. apply Qle_refl.
Qed.

(** C8.  For fixed [plan_start] and [plan_end], the progress percentage is
    non-decreasing in [today] and lies between 0 and 100.  (The bound
    [plan_end > plan_start] of a real plan is not needed: without it the
    last branch is never taken.) *)
Theorem plan_progress_pct_monotone (plan_start plan_end t1 t2 : date) :
  t1 <= t2 ->
  (plan_progress_pct plan_start plan_end t1
     <= plan_progress_pct plan_start plan_end t2)%Q /\
  (0 <= plan_progress_pct plan_start plan_end t1 <= 100)%Q /\
  (0 <= plan_progress_pct plan_start plan_end t2 <= 100)%Q.
Proof.
  intros H12.
  split; [| split; apply plan_progress_pct_bounds].
  pose proof (plan_progress_pct_bounds plan_start plan_end t1) as [_ Hhi].
  pose proof (plan_progress_pct_bounds plan_start plan_end t2) as [Hlo _].
  revert Hhi Hlo. unfold plan_progress_pct.
  destruct (Z.leb_spec t1 plan_start) as [H1s | H1s]; [tauto |].
  destruct (Z.leb_spec t2 plan_start) as [H2s | H2s]; [lia |].
  destruct (Z.geb_spec t2 plan_end) as [H2e | H2e]; [tauto |].
  destruct (Z.geb_spec t1 plan_end) as [H1e | H1e]; [lia |].
  intros _ _. apply ratio_monotone; [apply plan_days_pos | lia].
Qed.

(** The plan of the script always ends after it starts. *)
Lemma plan_bounds_ordered (raw ws : list date) (s e : date) :
  week_starts raw = Some ws ->
  plan_start ws = Some s -> plan_end ws = Some e -> s < e.
Proof.
  destruct raw as [| first rest]; [discriminate |].
  intros Hws Hs He.
  pose proof (week_starts_length _ _ Hws) as Hlen.
  unfold plan_start in Hs. unfold plan_end in He.
  rewrite head_lookup in Hs.
  rewrite last_lookup, Hlen in He.
  rewrite (week_starts_lookup _ _ _ 0%nat Hws) in Hs by (cbn; lia).
  rewrite (week_starts_lookup _ _ _ _ Hws) in He by (cbn; lia).
  cbn in Hs, He. injection Hs as <-. injection He as <-. lia.
Qed.

End Calendar.

(** A Wednesday (ordinal 3) moves to the Monday of the next week, a Monday
    (ordinal 8) stays. *)
Lemma align_to_monday_forward_witness :
  (weekday 3 <> 0 /\ 3 < align_to_monday 3 <= 3 + 6)%Z /\
  (weekday 8 = 0 /\ align_to_monday 8 = 8)%Z.
Proof.
  split.
  - assert (H : weekday 3 <> 0%Z) by discriminate.
    split; [exact H |].
    exact (proj1 (proj2 (proj2 (proj2 (align_to_monday_forward 3)))) H).
  - split; [reflexivity |].
    exact (proj1 (proj2 (proj2 (align_to_monday_forward 8))) eq_refl).
Defined.

(** Three rows whose later dates are irregular: the third week starts 14 days
    after the aligned first date. *)
Lemma week_starts_spec_witness :
  (2 < length [3; 100; 7]%Z)%nat /\
  exists ws,
    week_starts [3; 100; 7]%Z = Some ws /\
    ws !! 2%nat = Some (align_to_monday 3 + 7 * Z.of_nat 2)%Z.
Proof.
  assert (H : (2 < length [3; 100; 7]%Z)%nat) by (cbn; lia).
  split; [exact H |].
  destruct (week_starts_spec 3%Z [100; 7]%Z) as (ws & Hws & _ & Hnth & _).
  exists ws. split; [exact Hws |]. exact (Hnth 2%nat H).
Defined.

(** A four-week plan read on its tenth day and on its twentieth day. *)
Lemma plan_progress_pct_monotone_witness :
  (10 <= 20)%Z /\
  (plan_progress_pct 1 28 10 <= plan_progress_pct 1 28 20)%Q.
Proof.
  split; [lia |].
  apply (plan_progress_pct_monotone 1 28 10 20). lia.
Defined.

(* ===================================================================== *)
(** * Properties of the cell keys *)
(* ===================================================================== *)

Section Keys.

Lemma append_cons (c : ascii) (s t : string) :
  String c s +:+ t = String c (s +:+ t).
Proof. reflexivity. Qed.

Lemma append_nil (t : string) : "" +:+ t = t.
Proof. reflexivity. Qed.

(** Every character of [str(n)] is a digit. *)
Lemma string_of_uint_digits (d : Decimal.uint) :
  Str.all Str.is_digit (NilEmpty.string_of_uint d) = true.
Proof. induction d; cbn; auto. Qed.

Lemma of_nat_digits (n : nat) : Str.all Str.is_digit (Str.of_nat n) = true.
Proof. apply string_of_uint_digits. Qed.

Lemma of_nat_inj (n m : nat) : Str.of_nat n = Str.of_nat m -> n = m.
Proof.
  unfold Str.of_nat. intros H.
  apply Unsigned.to_uint_inj.
  assert (Hs : Some (Nat.to_uint n) = Some (Nat.to_uint m))
    by (rewrite <- !NilEmpty.usu; now rewrite H).
  congruence.
Qed.

Lemma digit_not_underscore (c : ascii) :
  Str.is_digit c = true -> c <> "_"%char.
Proof. intros H ->. discriminate. Qed.

(** Two strings of digits followed by an underscore and anything: the first
    underscore tells where the digits end. *)
Lemma digits_underscore_split (a b x y : string) :
  Str.all Str.is_digit a = true -> Str.all Str.is_digit b = true ->
  a +:+ String "_" x = b +:+ String "_" y -> a = b /\ x = y.
Proof.
  revert b. induction a as [| c a IH]; intros [| c' b] Ha Hb Heq.
  - rewrite !append_nil in Heq. injection Heq as ->. auto.
  - rewrite append_nil, append_cons in Heq. injection Heq as Hc _.
    cbn in Hb. apply andb_prop in Hb as [Hc' _].
    apply digit_not_underscore in Hc'. congruence.
  - rewrite append_nil, append_cons in Heq. injection Heq as Hc _.
    cbn in Ha. apply andb_prop in Ha as [Hc' _].
    apply digit_not_underscore in Hc'. congruence.
  - rewrite !append_cons in Heq. injection Heq as -> Heq.
    cbn in Ha, Hb. apply andb_prop in Ha as [_ Ha].
    apply andb_prop in Hb as [_ Hb].
    destruct (IH b Ha Hb Heq) as [-> ->]. auto.
Qed.

Lemma key_format (p : prefix) (w : nat) (name : string) :
  key p w name = prefix_str p +:+ "_" +:+ Str.of_nat w +:+ "_" +:+ slug name.
Proof. destruct p; reflexivity. Qed.

Lemma key_inj (p1 p2 : prefix) (w1 w2 : nat) (n1 n2 : string) :
  key p1 w1 n1 = key p2 w2 n2 -> p1 = p2 /\ w1 = w2 /\ slug n1 = slug n2.
Proof.
  intros H.
  assert (Hp : p1 = p2).
  { destruct p1, p2; auto; unfold key, completion_key, planned_key in H;
      rewrite !append_cons in H; discriminate. }
  subst p2. split; [reflexivity |].
  assert (Hrest : Str.of_nat w1 +:+ String "_" (slug n1)
                  = Str.of_nat w2 +:+ String "_" (slug n2)).
  { destruct p1; unfold key, completion_key, planned_key in H;
      rewrite !append_cons, !append_nil in H; now simplify_eq. }
  apply digits_underscore_split in Hrest as [Hw Hs];
    auto using of_nat_digits, of_nat_inj.
Qed.

Lemma slug_alike (a b : string) : alike a b -> slug a = slug b.
Proof.
  unfold slug, Str.replace, Str.lower.
  induction 1 as [| x y s t Hxy _ IH]; [reflexivity |].
  cbn. rewrite IH. f_equal.
  destruct Hxy as [x y Hl | |]; [now rewrite Hl | reflexivity..].
Qed.

(** C7.  A key is the prefix, the week index and the normalised column
    name joined by underscores; two keys are equal exactly when prefix,
    week index and normalised name are; column names that differ only by
    case or by spaces against underscores share their key, as "Session 1"
    and "session_1" do. *)
Theorem key_injective_up_to_slug :
  (forall p w name,
     key p w name
     = prefix_str p +:+ "_" +:+ Str.of_nat w +:+ "_" +:+ slug name) /\
  (forall p1 p2 w1 w2 n1 n2,
     key p1 w1 n1 = key p2 w2 n2 <->
     p1 = p2 /\ w1 = w2 /\ slug n1 = slug n2) /\
  (forall p w a b, alike a b -> key p w a = key p w b) /\
  key Completed 3 "Session 1" = key Completed 3 "session_1".
Proof.
  split; [exact key_format |].
  split; [| split; [| reflexivity]].
  - intros p1 p2 w1 w2 n1 n2. split; [apply key_inj |].
    intros (-> & -> & Hs). rewrite !key_format. now rewrite Hs.
  - intros p w a b Hab. rewrite !key_format.
    now rewrite (slug_alike a b Hab).
Qed.

End Keys.

(** "Session 1" and "session_1" differ by the case of one letter and by a
    space against an underscore. *)
Lemma key_injective_up_to_slug_witness :
  alike "Session 1" "session_1" /\
  key Planned 3 "Session 1" = key Planned 3 "session_1".
Proof.
  assert (H : alike "Session 1" "session_1").
  { repeat first [ apply alike_nil
                 | apply alike_cons;
                   [first [ apply alike_space_underscore
                          | apply alike_case; reflexivity ] |] ]. }
  split; [exact H |].
  exact (proj1 (proj2 (proj2 key_injective_up_to_slug))
           Planned 3 "Session 1" "session_1" H).
Defined.

(* ===================================================================== *)
(** * Properties of the persisted state *)
(* ===================================================================== *)

Section Persistence.
Implicit Types (state session_state : gmap string value) (f : file).

(** ** Loading *)

Lemma load_state_absent : load_state Absent = Ok (VDict ∅).
Proof. reflexivity. Qed.

Lemma load_state_unreadable : load_state Unreadable = Ok (VDict ∅).
Proof. reflexivity. Qed.

Lemma load_state_not_json : load_state NotJson = Ok (VDict ∅).
Proof. reflexivity. Qed.

(** A JSON object whose version is not 1 is discarded. *)
Lemma load_state_version_mismatch (d : gmap string value) :
  (forall v, d !! "version" = Some v -> eq_int v STATE_VERSION = false) ->
  load_state (Json (VDict d)) = Ok (VDict ∅).
Proof.
  intros Hv. cbn. destruct (d !! "version") as [v |] eqn:E.
  - now rewrite (Hv v eq_refl).
  - reflexivity.
Qed.

Lemma load_state_object (d : gmap string value) (v : value) :
  d !! "version" = Some v -> eq_int v STATE_VERSION = true ->
  load_state (Json (VDict d))
  = Ok (match d !! "state" with Some st => st | None => VDict ∅ end).
Proof. intros Hv He. cbn. now rewrite Hv, He. Qed.

(** C4, on the code.  A state file that holds valid JSON which is not an
    object (here the empty array) makes [load_state] raise
    [AttributeError] at [data.get("version")], and with it the restore of
    lines 161-166; an object of the right version whose [state] is not an
    object is returned as it is and makes [restored_state.items()] raise;
    a file that is not UTF-8 raises [UnicodeDecodeError], which the
    [except] clause does not list. *)
Theorem load_state_non_object_raises :
  load_state (Json (VList [])) = Raise AttributeError /\
  restore (Json (VList [])) ∅ = Raise AttributeError /\
  restore (Json (VDict (<["version" := VInt 1]>
                        (<["state" := VList [VBool true]]> ∅)))) ∅
  = Raise AttributeError /\
  load_state NotUtf8 = Raise UnicodeDecodeError.
Proof. repeat split; reflexivity. Qed.

(** ** Saving then loading *)

Lemma load_payload (saved_at : string) state :
  load_state (Json (payload saved_at state)) = Ok (VDict state).
Proof.
  unfold payload. erewrite load_state_object.
  - now rewrite lookup_insert_ne, lookup_insert_ne, lookup_insert_eq.
  - apply lookup_insert_eq.
  - reflexivity.
Qed.

Lemma startswith_cons (a : ascii) (p k : string) :
  Str.startswith (String a p) k = true ->
  exists k', k = String a k' /\ Str.startswith p k' = true.
Proof.
  destruct k as [| b k']; [discriminate |]. cbn.
  intros [Hab Hp]%andb_prop. apply Ascii.eqb_eq in Hab as <-. eauto.
Qed.

Lemma completed_not_planned (k : string) :
  Str.startswith "completed_" k = true ->
  Str.startswith "planned_" k = true -> False.
Proof.
  intros (k1 & -> & _)%startswith_cons (k2 & [=] & _)%startswith_cons.
Qed.

Lemma completion_key_prefix (w : nat) (col : string) :
  Str.startswith "completed_" (completion_key w col) = true.
Proof. reflexivity. Qed.

Lemma planned_key_prefix (w : nat) (col : string) :
  Str.startswith "planned_" (planned_key w col) = true.
Proof. reflexivity. Qed.

Lemma planned_key_not_completed (w : nat) (col : string) :
  Str.startswith "completed_" (planned_key w col) = false.
Proof. reflexivity. Qed.

Section Split.
Variables (c : gmap string bool) (p : gmap string string).
Hypothesis c_keys :
  forall k, is_Some (c !! k) -> Str.startswith "completed_" k = true.
Hypothesis p_keys :
  forall k, is_Some (p !! k) -> Str.startswith "planned_" k = true.

Let merged : gmap string value := (VBool <$> c) ∪ (VStr <$> p).

Lemma completion_part_merged : completion_part merged = VBool <$> c.
Proof.
  apply map_eq. intros k. unfold completion_part, merged.
  rewrite map_lookup_filter, lookup_union, !lookup_fmap.
  destruct (c !! k) as [b |] eqn:Ec; destruct (p !! k) as [d |] eqn:Ep;
    cbn; try reflexivity.
  - rewrite option_guard_True; [reflexivity |]. cbn. eauto.
  - rewrite option_guard_True; [reflexivity |]. cbn. eauto.
  - rewrite option_guard_False; [reflexivity |]. cbn. intros Hc.
    eapply completed_not_planned; eauto.
Qed.

Lemma planned_part_merged : planned_part merged = VStr <$> p.
Proof.
  apply map_eq. intros k. unfold planned_part, merged.
  rewrite map_lookup_filter, lookup_union, !lookup_fmap.
  destruct (c !! k) as [b |] eqn:Ec; destruct (p !! k) as [d |] eqn:Ep;
    cbn; try reflexivity.
  - exfalso. eapply completed_not_planned; eauto.
  - rewrite option_guard_False; [reflexivity |]. cbn. intros Hp.
    eapply completed_not_planned; eauto.
  - rewrite option_guard_True; [reflexivity |]. cbn. eauto.
Qed.
End Split.

(** The loop of lines 163-165 adds the entries whose key is new. *)
Lemma restore_items_union session_state (d : gmap string value) :
  map_fold restore_item session_state d = session_state ∪ d.
Proof.
  apply (map_fold_weak_ind (fun r m => r = session_state ∪ m)).
  - now rewrite (right_id_L ∅ (∪)).
  - intros k v m r Hk ->. unfold restore_item.
    rewrite lookup_union, Hk, (right_id_L None union).
    destruct (session_state !! k) as [v0 |] eqn:Ek.
    + apply map_eq. intros j. rewrite !lookup_union.
      destruct (decide (k = j)) as [<- | Hne].
      * rewrite Ek. now destruct (m !! k), (<[k:=v]> m !! k).
      * now rewrite lookup_insert_ne.
    + now rewrite insert_union_r.
Qed.

(** C9.  Completion flags [c] under keys that start with [completed_] and
    planned days [p] under keys that start with [planned_] are merged into
    one state and saved; loading the file that was written returns that
    state, its split by prefix gives [c] and [p] back, and a fresh session
    is restored to exactly that state (with the [state_loaded] mark). *)
Theorem save_load_roundtrip (c : gmap string bool) (p : gmap string string)
    (saved_at : string) f :
  (forall k, is_Some (c !! k) -> Str.startswith "completed_" k = true) ->
  (forall k, is_Some (p !! k) -> Str.startswith "planned_" k = true) ->
  let state := (VBool <$> c) ∪ (VStr <$> p) in
  let f' := (save_state saved_at true state f).1 in
  load_state f' = Ok (VDict state) /\
  completion_part state = VBool <$> c /\
  planned_part state = VStr <$> p /\
  restore f' ∅ = Ok (<["state_loaded" := VBool true]> state).
Proof.
  intros Hc Hp state f'.
  assert (Hload : load_state f' = Ok (VDict state)) by apply load_payload.
  split; [| split; [| split]].
  - exact Hload.
  - now apply completion_part_merged.
  - now apply planned_part_merged.
  - unfold restore. rewrite lookup_empty, Hload. cbn.
    now rewrite restore_items_union, (left_id_L ∅ (∪)).
Qed.

End Persistence.

(** One completed cell and one planned day, saved over a missing file. *)
Lemma save_load_roundtrip_witness :
  load_state
    (save_state "2024-01-01" true
       ((VBool <$> {["completed_0_session_1" := true]})
        ∪ (VStr <$> {["planned_0_session_1" := "2024-01-03"]})) Absent).1
  = Ok (VDict ((VBool <$> {["completed_0_session_1" := true]})
               ∪ (VStr <$> {["planned_0_session_1" := "2024-01-03"]}))).
Proof.
  apply (save_load_roundtrip {["completed_0_session_1" := true]}
           {["planned_0_session_1" := "2024-01-03"]} "2024-01-01" Absent).
  - intros k [b Hk]. apply lookup_singleton_Some in Hk as [<- _]. reflexivity.
  - intros k [d Hk]. apply lookup_singleton_Some in Hk as [<- _]. reflexivity.
Defined.

(* ===================================================================== *)
(** * Properties of what a save stores *)
(* ===================================================================== *)

Section Persisted.
Variable session_state : gmap string value.

(** [covers G m]: the dictionary [m] holds exactly the keys of [G] that
    the session state has, with the values a save gives them. *)
Definition covers (G : string -> Prop) (m : gmap string value) : Prop :=
  forall k,
    (G k -> m !! k = persist_value k <$> session_state !! k) /\
    (is_Some (m !! k) -> G k).

Lemma covers_iff (G G' : string -> Prop) (m : gmap string value) :
  (forall k, G k <-> G' k) -> covers G m -> covers G' m.
Proof.
  intros HG Hm k. destruct (Hm k) as [H1 H2].
  split; intros H; [apply H1 | apply HG, H2, H]. now apply HG.
Qed.

Lemma covers_empty : covers (fun _ => False) ∅.
Proof.
  intros k. split; [tauto |]. rewrite lookup_empty. now intros [? ?].
Qed.

(** Storing one grid key keeps the invariant. *)
Lemma covers_store (G : string -> Prop) (m : gmap string value)
    (k0 : string) :
  covers G m ->
  covers (fun k => G k \/ k = k0)
    match session_state !! k0 with
    | Some v => <[k0 := persist_value k0 v]> m
    | None => m
    end.
Proof.
  intros Hm k. destruct (Hm k) as [H1 H2].
  destruct (decide (k = k0)) as [-> | Hne].
  - destruct (session_state !! k0) as [v |] eqn:E.
    + rewrite lookup_insert_eq. split; auto.
    + split; [| auto]. intros [HG | _]; [auto |].
      destruct (m !! k0) eqn:Em; [| reflexivity].
      exfalso. specialize (H1 (H2 (mk_is_Some _ _ eq_refl))). discriminate.
  - assert (Hk : match session_state !! k0 with
                 | Some v => <[k0 := persist_value k0 v]> m
                 | None => m
                 end !! k = m !! k).
    { destruct (session_state !! k0); [| reflexivity].
      now rewrite lookup_insert_ne. }
    rewrite Hk. split; [intros [HG | ?]; [auto | contradiction] | auto].
Qed.

Lemma persist_cell_stores (w : nat) (col : string)
    (m : gmap string value) :
  persist_cell session_state w m col =
  match session_state !! planned_key w col with
  | Some v => <[planned_key w col := persist_value (planned_key w col) v]>
  | None => fun m => m
  end
    match session_state !! completion_key w col with
    | Some v =>
        <[completion_key w col
          := persist_value (completion_key w col) v]> m
    | None => m
    end.
Proof.
  unfold persist_cell, persist_value.
  rewrite completion_key_prefix, planned_key_not_completed.
  now destruct (session_state !! planned_key w col).
Qed.

Lemma covers_cell (G : string -> Prop) (m : gmap string value)
    (w : nat) (col : string) :
  covers G m ->
  covers (fun k => G k \/ k = completion_key w col \/ k = planned_key w col)
         (persist_cell session_state w m col).
Proof.
  intros Hm. rewrite persist_cell_stores.
  apply (covers_store _ _ (completion_key w col)) in Hm.
  apply (covers_store _ _ (planned_key w col)) in Hm.
  eapply covers_iff; [| destruct (session_state !! planned_key w col);
                        exact Hm].
  intros k. cbn. tauto.
Qed.

Lemma covers_row (cols : list string) (w : nat) :
  forall (G : string -> Prop) (m : gmap string value),
    covers G m ->
    covers (fun k => G k \/ exists col, col ∈ cols /\
              (k = completion_key w col \/ k = planned_key w col))
           (fold_left (persist_cell session_state w) cols m).
Proof.
  induction cols as [| col cols IH]; intros G m Hm; cbn [fold_left].
  - eapply covers_iff; [| exact Hm]. intros k.
    split; [auto |]. intros [? | (col & Hin & _)]; [auto |].
    now apply not_elem_of_nil in Hin.
  - eapply covers_iff; [| apply IH, covers_cell, Hm]. intros k. cbn.
    split.
    + intros [[HG | Hk] | (c & Hin & Hk)]; eauto.
      * right. exists col. split; [left | exact Hk].
      * right. exists c. split; [now right | exact Hk].
    + intros [HG | (c & Hin & Hk)]; [auto |].
      apply elem_of_cons in Hin as [-> | Hin]; eauto.
Qed.

Lemma covers_grid (cols : list string) (n : nat) :
  covers (grid_key n cols) (persisted_state n cols session_state).
Proof.
  unfold persisted_state. induction n as [| n IH].
  - eapply covers_iff; [| apply covers_empty].
    intros k. split; [tauto |]. intros (w & _ & Hw & _). lia.
  - rewrite seq_S, fold_left_app. cbn [fold_left Nat.add].
    eapply covers_iff; [| apply covers_row, IH]. intros k. cbn.
    unfold grid_key. split.
    + intros [(w & col & Hw & Hc & Hk) | (col & Hc & Hk)].
      * exists w, col. split; [lia | auto].
      * exists n, col. split; [lia | auto].
    + intros (w & col & Hw & Hc & Hk).
      destruct (decide (w = n)) as [-> | Hne].
      * right. eauto.
      * left. exists w, col. split; [lia | auto].
Qed.

Lemma state_loaded_not_grid_key (n : nat) (cols : list string) :
  ~ grid_key n cols "state_loaded".
Proof.
  intros (w & col & _ & _ & [H | H]);
    unfold completion_key, planned_key in H; discriminate.
Qed.

(** C10, as the code has it.  The saved dictionary holds exactly the keys
    of the plan's grid that the session state has, a completion key with
    its flag coerced to a Boolean and a planned key with its value; a key
    outside the grid is not saved, whatever the session state holds under
    it: [state_loaded] never is, and the key of a selectbox is saved only
    if it is itself a key of the grid. *)
Theorem persisted_state_exact (n : nat) (cols : list string) :
  (forall k, is_Some (persisted_state n cols session_state !! k) <->
             grid_key n cols k /\ is_Some (session_state !! k)) /\
  (forall w col, w < n -> col ∈ cols ->
     persisted_state n cols session_state !! completion_key w col
     = (fun v => VBool (truthy v))
         <$> session_state !! completion_key w col) /\
  (forall w col, w < n -> col ∈ cols ->
     persisted_state n cols session_state !! planned_key w col
     = session_state !! planned_key w col) /\
  persisted_state n cols session_state !! "state_loaded" = None /\
  (forall w col, ~ grid_key n cols (select_key w col) ->
     persisted_state n cols session_state !! select_key w col = None).
Proof.
  pose proof (covers_grid cols n) as Hcov.
  assert (Hout : forall k, ~ grid_key n cols k ->
            persisted_state n cols session_state !! k = None).
  { intros k Hk. apply eq_None_not_Some. intros Hs.
    now apply Hk, (Hcov k). }
  split; [| split; [| split; [| split]]].
  - intros k. destruct (Hcov k) as [H1 H2]. split.
    + intros Hs. split; [auto |]. rewrite (H1 (H2 Hs)) in Hs.
      now apply fmap_is_Some in Hs.
    + intros [HG Hs]. rewrite (H1 HG). now apply fmap_is_Some.
  - intros w col Hw Hc.
    destruct (Hcov (completion_key w col)) as [H1 _]. rewrite H1.
    + unfold persist_value. now rewrite completion_key_prefix.
    + exists w, col. auto.
  - intros w col Hw Hc.
    destruct (Hcov (planned_key w col)) as [H1 _]. rewrite H1.
    + unfold persist_value. rewrite planned_key_not_completed.
      now destruct (session_state !! planned_key w col).
    + exists w, col. auto.
  - apply Hout, state_loaded_not_grid_key.
  - intros w col. apply Hout.
Qed.

End Persisted.

(** C10, as stated, fails.  With the session columns "Session 1 select" and
    "Session 1", the key of the selectbox of "Session 1" in week 0 is the
    planned key of "Session 1 select".  The session state below is the one a
    first run over a one-week plan leaves behind (both selectboxes on
    "Unplanned", both checkboxes unticked): the save stores the selectbox
    key. *)
Lemma select_key_persisted :
  session_columns ["Week Commencing"; "Session 1 select"; "Session 1"]
  = ["Session 1 select"; "Session 1"] /\
  select_key 0 "Session 1" = planned_key 0 "Session 1 select" /\
  persisted_state 1 ["Session 1 select"; "Session 1"]
    (<[select_key 0 "Session 1 select" := VStr "Unplanned"]>
       (<[select_key 0 "Session 1" := VStr "Unplanned"]>
          (<[completion_key 0 "Session 1 select" := VBool false]>
             (<[completion_key 0 "Session 1" := VBool false]>
                {["state_loaded" := VBool true]}))))
    !! select_key 0 "Session 1"
  = Some (VStr "Unplanned").
Proof. repeat split; vm_compute; reflexivity. Qed.

(** With the single session column "Session 1" the key of its selectbox is
    no key of the grid, and is not saved. *)
Lemma persisted_state_exact_witness :
  ~ grid_key 1 ["Session 1"] (select_key 0 "Session 1") /\
  persisted_state 1 ["Session 1"]
    (<[select_key 0 "Session 1" := VStr "Unplanned"]>
       (<[completion_key 0 "Session 1" := VBool true]>
          {["state_loaded" := VBool true]}))
    !! select_key 0 "Session 1" = None.
Proof.
  assert (H : ~ grid_key 1 ["Session 1"] (select_key 0 "Session 1")).
  { intros (w & col & Hw & Hcol & Hk).
    assert (w = 0) as -> by lia.
    apply list_elem_of_singleton in Hcol as ->.
    destruct Hk as [Hk | Hk]; vm_compute in Hk; discriminate. }
  split; [exact H |].
  exact (proj2 (proj2 (proj2 (proj2
           (persisted_state_exact _ 1 ["Session 1"])))) 0 "Session 1" H).
Defined.

(* ===================================================================== *)
(** * Properties of the matcher *)
(* ===================================================================== *)

Section StringFacts.

Lemma append_assoc (a b c : string) : (a +:+ b) +:+ c = a +:+ (b +:+ c).
Proof.
  induction a as [| x a IH]; [reflexivity |]. now rewrite !append_cons, IH.
Qed.

Lemma append_empty_r (a : string) : a +:+ "" = a.
Proof.
  induction a as [| x a IH]; [reflexivity |]. now rewrite append_cons, IH.
Qed.

Lemma length_append (a b : string) :
  String.length (a +:+ b) = String.length a + String.length b.
Proof.
  induction a as [| x a IH]; [reflexivity |].
  rewrite append_cons. cbn. now rewrite IH.
Qed.

Lemma take_append (u v : string) :
  Str.take (String.length (u +:+ v) - String.length v) (u +:+ v) = u.
Proof.
  rewrite length_append.
  replace (String.length u + String.length v - String.length v)
    with (String.length u) by lia.
  induction u as [| x u IH]; [now destruct (_ +:+ _) |].
  rewrite append_cons. cbn. now rewrite IH.
Qed.

Lemma all_append (p : ascii -> bool) (a b : string) :
  Str.all p (a +:+ b) = Str.all p a && Str.all p b.
Proof.
  induction a as [| x a IH]; [reflexivity |].
  rewrite append_cons. cbn. now rewrite IH, andb_assoc.
Qed.

End StringFacts.

Section MatcherFacts.
Context {R : Type}.
Implicit Types (k : string -> list string -> option R) (r : Re.regex).

Lemma star_sound p s gs k x :
  Re.star p s gs k = Some x ->
  exists u v, s = u +:+ v /\ Str.all p u = true /\ k v gs = Some x.
Proof.
  induction s as [| c s IH]; cbn.
  - intros H. exists "", "". auto.
  - destruct (p c) eqn:Hc.
    + destruct (Re.star p s gs k) as [y |] eqn:E.
      * intros [= ->]. destruct (IH eq_refl) as (u & v & -> & Hu & Hk).
        exists (String c u), v. cbn. rewrite Hc, Hu. auto.
      * intros H. exists "", (String c s). auto.
    + intros H. exists "", (String c s). auto.
Qed.

Lemma star_complete p u v gs k :
  Str.all p u = true -> is_Some (k v gs) ->
  is_Some (Re.star p (u +:+ v) gs k).
Proof.
  intros Hu Hk. induction u as [| c u IH].
  - rewrite append_nil. destruct v as [| c v]; cbn; [exact Hk |].
    destruct (p c); [| exact Hk].
    destruct (Re.star p v gs k); [eauto | exact Hk].
  - cbn in Hu. apply andb_prop in Hu as [Hc Hu].
    rewrite append_cons. cbn. rewrite Hc.
    destruct (IH Hu) as [y ->]. eauto.
Qed.

End MatcherFacts.

Section MatcherCorrect.

(** Whatever the matcher finds is a match: the input splits into the text
    [u] that [r] matched and the text [v] handed to the continuation. *)
Lemma bt_sound r : forall (R : Type) (s : string) (gs : list string)
    (k : string -> list string -> option R) (x : R),
  Re.bt r s gs k = Some x ->
  exists u v g, s = u +:+ v /\ matches r u g /\ k v (gs ++ g) = Some x.
Proof.
  induction r as [c | p | r1 IH1 r2 IH2 | r IH | p | p | r IH];
    intros R s gs k x; cbn [Re.bt].
  - destruct s as [| c' s]; [discriminate |].
    destruct (Ascii.eqb_spec c' c) as [-> | _]; [| discriminate].
    intros H. exists (String c ""), s, []. rewrite app_nil_r.
    eauto using matches.
  - destruct s as [| c' s]; [discriminate |].
    destruct (p c') eqn:Hc; [| discriminate].
    intros H. exists (String c' ""), s, []. rewrite app_nil_r.
    eauto using matches.
  - intros H. apply IH1 in H as (u1 & v1 & g1 & -> & H1 & H).
    apply IH2 in H as (u2 & v2 & g2 & -> & H2 & H).
    exists (u1 +:+ u2), v2, (g1 ++ g2).
    rewrite append_assoc, app_assoc. eauto using matches.
  - destruct (Re.bt r s gs k) as [y |] eqn:E.
    + intros [= ->]. apply IH in E as (u & v & g & -> & Hm & H).
      eauto 7 using matches.
    + intros H. exists "", s, []. rewrite app_nil_r. eauto using matches.
  - intros H. apply star_sound in H as (u & v & -> & Hu & H).
    exists u, v, []. rewrite app_nil_r. eauto using matches.
  - destruct s as [| c s]; [discriminate |].
    destruct (p c) eqn:Hc; [| discriminate].
    intros H. apply star_sound in H as (u & v & -> & Hu & H).
    exists (String c u), v, []. rewrite app_nil_r.
    split; [reflexivity |]. split; [| exact H].
    constructor; [discriminate | cbn; now rewrite Hc, Hu].
  - intros H. apply IH in H as (u & v & g & -> & Hm & H).
    rewrite take_append, <- app_assoc in H. eauto 7 using matches.
Qed.

(** Backtracking misses nothing: if some split of the input lets [r] match
    and the continuation succeed, the matcher succeeds. *)
Lemma bt_complete r u g : matches r u g ->
  forall (R : Type) (v : string) (gs : list string)
    (k : string -> list string -> option R),
  is_Some (k v (gs ++ g)) -> is_Some (Re.bt r (u +:+ v) gs k).
Proof.
  induction 1 as [c | p c Hc | r1 r2 u1 u2 g1 g2 _ IH1 _ IH2 | r u g _ IH
                  | r | p u Hu | p u Hne Hu | r u g _ IH];
    intros R v gs k Hk; cbn [Re.bt].
  - rewrite append_cons, append_nil, Ascii.eqb_refl.
    now rewrite app_nil_r in Hk.
  - rewrite append_cons, append_nil, Hc. now rewrite app_nil_r in Hk.
  - rewrite append_assoc. apply IH1, IH2. now rewrite <- app_assoc.
  - destruct (IH R v gs k Hk) as [y ->]. eauto.
  - rewrite append_nil. rewrite app_nil_r in Hk.
    destruct (Re.bt r v gs k); [eauto | exact Hk].
  - rewrite app_nil_r in Hk. now apply star_complete.
  - destruct u as [| c u]; [contradiction |].
    cbn in Hu. apply andb_prop in Hu as [Hc Hu].
    rewrite append_cons, Hc. rewrite app_nil_r in Hk.
    now apply star_complete.
  - apply IH. rewrite take_append, <- app_assoc. exact Hk.
Qed.

Lemma match_at_sound r s gs len :
  Re.match_at r s = Some (gs, len) ->
  exists u v, s = u +:+ v /\ matches r u gs /\ len = String.length u.
Proof.
  unfold Re.match_at. intros H.
  apply bt_sound in H as (u & v & g & -> & Hm & [= <- <-]).
  exists u, v. rewrite length_append. repeat split; [exact Hm | lia].
Qed.

Lemma match_at_none r s :
  Re.match_at r s = None ->
  forall u v g, s = u +:+ v -> ~ matches r u g.
Proof.
  unfold Re.match_at. intros H u v g -> Hm.
  pose proof (bt_complete r u g Hm _ v []
                (fun s' gs => Some (gs, String.length (u +:+ v)
                                         - String.length s'))) as Hc.
  cbv beta in Hc. rewrite H in Hc.
  destruct Hc as [y Hy]; [eauto | discriminate].
Qed.

(** [re.search]: the groups of a match that starts at some position, no
    match starting before it. *)
Lemma search_sound r s gs :
  Re.search r s = Some gs ->
  exists pre u v,
    s = pre +:+ u +:+ v /\ matches r u gs /\
    (forall pre' s' u' v' g',
       s = pre' +:+ s' -> String.length pre' < String.length pre ->
       s' = u' +:+ v' -> ~ matches r u' g').
Proof.
  induction s as [| c s IH]; cbn [Re.search].
  - destruct (Re.match_at r "") as [[g len] |] eqn:E; [| discriminate].
    intros [= ->]. apply match_at_sound in E as (u & v & Hs & Hm & _).
    exists "", u, v. repeat split; auto. cbn. lia.
  - destruct (Re.match_at r (String c s)) as [[g len] |] eqn:E.
    + intros [= ->]. apply match_at_sound in E as (u & v & Hs & Hm & _).
      exists "", u, v. repeat split; auto. cbn. lia.
    + intros H. destruct (IH H) as (pre & u & v & -> & Hm & Hleft).
      exists (String c pre), u, v. repeat split; auto.
      intros [| c' pre'] s' u' v' g' Hs Hlen Hs'.
      * rewrite append_nil in Hs. subst s'.
        eapply match_at_none; eauto.
      * rewrite !append_cons in Hs. injection Hs as _ Hs.
        eapply Hleft; eauto. cbn in Hlen. lia.
Qed.

Lemma search_none r s :
  Re.search r s = None ->
  forall pre u v g, s = pre +:+ u +:+ v -> ~ matches r u g.
Proof.
  induction s as [| c s IH]; cbn [Re.search];
    destruct (Re.match_at r _) as [[g0 len] |] eqn:E; try discriminate;
    intros H [| c' pre] u v g Hs.
  - eapply match_at_none; eauto.
  - discriminate.
  - eapply match_at_none; eauto.
  - rewrite append_cons in Hs. injection Hs as _ Hs. eapply IH; eauto.
Qed.

End MatcherCorrect.

(* ===================================================================== *)
(** * Properties of the text distance parser *)
(* ===================================================================== *)

Section Patterns.

(** Inversion of [matches] on a pattern whose head is known. *)
Ltac inv_matches :=
  repeat match goal with
    | H : matches (Re.Seq _ _) _ _ |- _ => inversion H; subst; clear H
    | H : matches (Re.Group _) _ _ |- _ => inversion H; subst; clear H
    | H : matches (Re.Lit _) _ _ |- _ => inversion H; subst; clear H
    | H : matches (Re.Star _) _ _ |- _ => inversion H; subst; clear H
    | H : matches (Re.Plus _) _ _ |- _ => inversion H; subst; clear H
    | H : matches (Re.Opt _) _ _ |- _ => inversion H; subst; clear H
    | H : matches (_ >> _) _ _ |- _ => inversion H; subst; clear H
    end.

Lemma matches_number_re u g : matches number_re u g <-> number u /\ g = [].
Proof.
  unfold number_re. split.
  - intros H. inv_matches.
    + split; [| reflexivity]. apply number_frac; split; assumption.
    + split; [| reflexivity]. rewrite append_empty_r.
      apply number_int; split; assumption.
  - intros [Hn ->]. destruct Hn as [i [Hne Hi] | i f [Hne Hi] [Hnf Hf]].
    + rewrite <- (append_empty_r i).
      change (@nil string) with (@nil string ++ []).
      eauto using matches.
    + change (@nil string) with ([] ++ ([] ++ @nil string)).
      apply matches_seq; [now constructor |].
      apply matches_opt_some.
      change ("." +:+ f) with (String "." "" +:+ f).
      apply matches_seq; now constructor.
Qed.

Lemma matches_km_re u g :
  matches km_re u g <->
  exists lo w, number lo /\ spaces w /\ u = lo +:+ w +:+ "km" /\ g = [lo].
Proof.
  unfold km_re. split.
  - intros H. inv_matches.
    match goal with H : matches number_re _ _ |- _ =>
      apply matches_number_re in H as [Hn ->] end.
    eexists _, _. repeat split; eauto.
  - intros (lo & w & Hn & Hw & -> & ->).
    change [lo] with (([] ++ [lo]) ++ ([] ++ ([] ++ @nil string))).
    apply matches_seq; [apply matches_group; now apply matches_number_re |].
    apply matches_seq; [now constructor |].
    change "km" with (String "k" "" +:+ String "m" "").
    apply matches_seq; constructor.
Qed.

Lemma matches_range_re u g :
  matches range_re u g <->
  exists lo w1 w2 hi w3,
    number lo /\ number hi /\ spaces w1 /\ spaces w2 /\ spaces w3 /\
    u = lo +:+ w1 +:+ "-" +:+ w2 +:+ hi +:+ w3 +:+ "km" /\ g = [lo; hi].
Proof.
  unfold range_re. split.
  - intros H. inv_matches.
    repeat match goal with H : matches number_re _ _ |- _ =>
      apply matches_number_re in H as [? ->] end.
    eexists _, _, _, _, _. repeat split; eauto.
  - intros (lo & w1 & w2 & hi & w3 & Hlo & Hhi & H1 & H2 & H3 & -> & ->).
    change [lo; hi]
      with (([] ++ [lo]) ++ [] ++ [] ++ [] ++ ([] ++ [hi])
            ++ [] ++ [] ++ @nil string).
    apply matches_seq; [apply matches_group; now apply matches_number_re |].
    apply matches_seq; [now constructor |].
    change ("-" +:+ w2 +:+ hi +:+ w3 +:+ "km")
      with (String "-" "" +:+ w2 +:+ hi +:+ w3 +:+ "km").
    apply matches_seq; [constructor |].
    apply matches_seq; [now constructor |].
    apply matches_seq; [apply matches_group; now apply matches_number_re |].
    apply matches_seq; [now constructor |].
    change "km" with (String "k" "" +:+ String "m" "").
    apply matches_seq; constructor.
Qed.

Lemma range_at_matches s lo hi :
  range_at s lo hi <->
  exists u v, s = u +:+ v /\ matches range_re u [lo; hi].
Proof.
  split.
  - intros (w1 & w2 & w3 & rest & Hlo & Hhi & H1 & H2 & H3 & ->).
    exists (lo +:+ w1 +:+ "-" +:+ w2 +:+ hi +:+ w3 +:+ "km"), rest.
    split; [now rewrite !append_assoc |].
    apply matches_range_re. eexists _, _, _, _, _. repeat split; eauto.
  - intros (u & v & -> & Hm).
    apply matches_range_re in Hm
      as (lo' & w1 & w2 & hi' & w3 & Hlo & Hhi & H1 & H2 & H3 & -> & [= <- <-]).
    exists w1, w2, w3, v. repeat split; auto. now rewrite !append_assoc.
Qed.

Lemma km_at_matches s lo rest :
  km_at s lo rest <-> exists u, s = u +:+ rest /\ matches km_re u [lo].
Proof.
  split.
  - intros (w & Hlo & Hw & ->). exists (lo +:+ w +:+ "km").
    split; [now rewrite !append_assoc |].
    apply matches_km_re. eexists _, _. repeat split; eauto.
  - intros (u & -> & Hm).
    apply matches_km_re in Hm as (lo' & w & Hlo & Hw & -> & [= <-]).
    exists w. repeat split; auto. now rewrite !append_assoc.
Qed.

End Patterns.

(** ** Each position is read in one way only *)

Section Unique.

(** A run of characters of a class that ends where the class ends. *)
Lemma span_unique (p : ascii -> bool) (a b x y : string) :
  Str.all p a = true -> Str.all p b = true ->
  head_not p x -> head_not p y ->
  a +:+ x = b +:+ y -> a = b /\ x = y.
Proof.
  revert b. induction a as [| c a IH]; intros [| c' b] Ha Hb Hx Hy Heq.
  - rewrite !append_nil in Heq. auto.
  - rewrite append_nil, append_cons in Heq. subst x.
    cbn in Hb, Hx. rewrite Hx in Hb. discriminate.
  - rewrite append_nil, append_cons in Heq. subst y.
    cbn in Ha, Hy. rewrite Hy in Ha. discriminate.
  - rewrite !append_cons in Heq. injection Heq as -> Heq.
    cbn in Ha, Hb. apply andb_prop in Ha as [_ Ha].
    apply andb_prop in Hb as [_ Hb].
    destruct (IH b Ha Hb Hx Hy Heq) as [-> ->]. auto.
Qed.

Lemma space_not_digit (c : ascii) :
  Str.is_space c = true -> Str.is_digit c = false.
Proof.
  destruct c as [[] [] [] [] [] [] [] []]; try discriminate; reflexivity.
Qed.

(** What may follow a number: neither a digit nor a dot. *)
Definition head_ends_number (x : string) : Prop :=
  head_not Str.is_digit x /\ head_not (Ascii.eqb ".") x.

Lemma head_ends_number_spaces (w x : string) (c : ascii) :
  spaces w -> Str.is_digit c = false -> Ascii.eqb "." c = false ->
  head_ends_number (w +:+ String c x).
Proof.
  intros Hw Hd Hdot. destruct w as [| s w]; [now split |].
  cbn in Hw. apply andb_prop in Hw as [Hs _].
  rewrite append_cons. split; unfold head_not.
  - now apply space_not_digit.
  - destruct (Ascii.eqb_spec "." s) as [<- |]; [discriminate | reflexivity].
Qed.

Lemma number_unique (lo lo' x y : string) :
  number lo -> number lo' -> head_ends_number x -> head_ends_number y ->
  lo +:+ x = lo' +:+ y -> lo = lo' /\ x = y.
Proof.
  intros [i [_ Hi] | i f [_ Hi] [_ Hf]] [i' [_ Hi'] | i' f' [_ Hi'] [_ Hf']]
    [Hxd Hxp] [Hyd Hyp] Heq.
  - eapply span_unique; eauto.
  - rewrite !append_assoc in Heq.
    apply span_unique with (p := Str.is_digit) in Heq as [_ Hx];
      auto; [| reflexivity].
    subst x. change (true = false) in Hxp. discriminate.
  - rewrite !append_assoc in Heq.
    apply span_unique with (p := Str.is_digit) in Heq as [_ Hy];
      auto; [| reflexivity].
    subst y. change (true = false) in Hyp. discriminate.
  - rewrite !append_assoc in Heq.
    apply span_unique with (p := Str.is_digit) in Heq as [-> Heq];
      auto; try reflexivity.
    rewrite !append_cons, !append_nil in Heq. injection Heq as Heq.
    apply span_unique with (p := Str.is_digit) in Heq as [-> ->]; auto.
Qed.

Lemma number_head (lo x : string) :
  number lo -> head_not Str.is_space (lo +:+ x).
Proof.
  assert (H : forall i, digits i -> head_not Str.is_space (i +:+ x)).
  { intros [| c i] [Hne Hi]; [contradiction |].
    rewrite append_cons. cbn in *. apply andb_prop in Hi as [Hc _].
    destruct (Str.is_space c) eqn:E; [| reflexivity].
    apply space_not_digit in E. congruence. }
  intros [i Hi | i f Hi Hf]; [auto |].
  rewrite append_assoc.
  destruct i as [| c i]; [now destruct Hi |].
  specialize (H (String c i) Hi). now rewrite append_cons in *.
Qed.

Lemma km_at_unique (s lo lo' rest rest' : string) :
  km_at s lo rest -> km_at s lo' rest' -> lo = lo' /\ rest = rest'.
Proof.
  intros (w & Hlo & Hw & ->) (w' & Hlo' & Hw' & Heq).
  apply number_unique in Heq as [-> Heq]; auto;
    try (apply head_ends_number_spaces; auto).
  apply span_unique with (p := Str.is_space) in Heq as [_ Heq];
    auto; try reflexivity.
  rewrite !append_cons, !append_nil in Heq. injection Heq as <-. auto.
Qed.

Lemma range_at_unique (s lo lo' hi hi' : string) :
  range_at s lo hi -> range_at s lo' hi' -> lo = lo' /\ hi = hi'.
Proof.
  intros (w1 & w2 & w3 & rest & Hlo & Hhi & H1 & H2 & H3 & ->)
         (w1' & w2' & w3' & rest' & Hlo' & Hhi' & H1' & H2' & H3' & Heq).
  apply number_unique in Heq as [-> Heq]; auto;
    try (apply head_ends_number_spaces; auto).
  apply span_unique with (p := Str.is_space) in Heq as [_ Heq];
    auto; try reflexivity.
  rewrite !append_cons, !append_nil in Heq. injection Heq as Heq.
  apply span_unique with (p := Str.is_space) in Heq as [_ Heq];
    auto using number_head.
  apply number_unique in Heq as [-> _]; auto;
    apply head_ends_number_spaces; auto.
Qed.

(** The reading of [km_scan] is a function of the segment. *)
Lemma km_scan_unique (s : string) (los los' : list string) :
  km_scan s los -> km_scan s los' -> los = los'.
Proof.
  intros H. revert los'.
  induction H as [| c s los Hno _ IH | s lo rest los Hat _ IH];
    intros los' H'.
  - inversion H' as [| | s' lo rest los1 Hat _]; subst; [reflexivity |].
    destruct Hat as (w & [[| c i] [Hne _] | [| c i] f [Hne _] _] & _ & Heq);
      try contradiction; discriminate.
  - inversion H' as [| c' s' los1 _ H1 | s' lo rest los1 Hat _]; subst.
    + now apply IH.
    + now apply Hno in Hat.
  - inversion H' as [| c' s' los1 Hno _ | s' lo' rest' los1 Hat' H1]; subst.
    + destruct Hat as (w & [[| c i] [Hne _] | [| c i] f [Hne _] _] & _ & Heq);
        try contradiction; discriminate.
    + now apply Hno in Hat.
    + destruct (km_at_unique _ _ _ _ _ Hat Hat') as [-> ->].
      f_equal. now apply IH.
Qed.

End Unique.

Section Floats.

Lemma digits_no_dot (i : string) :
  Str.all Str.is_digit i = true -> int_part i = i /\ frac_part i = None.
Proof.
  induction i as [| c i IH]; [auto |]. cbn.
  intros [Hc Hi]%andb_prop. destruct (IH Hi) as [-> ->].
  destruct (Ascii.eqb_spec c "."); [subst; discriminate | auto].
Qed.

Lemma digits_dot (i f : string) :
  Str.all Str.is_digit i = true ->
  int_part (i +:+ "." +:+ f) = i /\ frac_part (i +:+ "." +:+ f) = Some f.
Proof.
  induction i as [| c i IH]; [auto |]. rewrite append_cons. cbn.
  intros [Hc Hi]%andb_prop. destruct (IH Hi) as [-> ->].
  destruct (Ascii.eqb_spec c "."); [subst; discriminate | auto].
Qed.

Lemma digits_all_digits (i : string) : digits i -> all_digits i = true.
Proof.
  intros [Hne Hi]. unfold all_digits. rewrite Hi.
  destruct (String.eqb_spec i ""); [contradiction | reflexivity].
Qed.

Lemma number_is_decimal (s : string) : number s -> is_decimal s = true.
Proof.
  unfold is_decimal.
  intros [i Hi | i f Hi Hf].
  - destruct (digits_no_dot i (proj2 Hi)) as [-> ->].
    now rewrite digits_all_digits.
  - destruct (digits_dot i f (proj2 Hi)) as [-> ->].
    now rewrite !digits_all_digits.
Qed.

(** [float] never raises on the text of a group of the two patterns. *)
Lemma float_number (s : string) : number s -> float s = Ok (decimal_value s).
Proof. intros H. unfold float. now rewrite number_is_decimal. Qed.

Lemma for_list_floats (los : list string) :
  Forall number los ->
  for_list (fun m => float (Re.group 1 m)) ((fun lo => [lo]) <$> los)
  = Ok (decimal_value <$> los).
Proof.
  induction 1 as [| lo los Hlo _ IH]; [reflexivity |].
  cbn [fmap list_fmap for_list]. rewrite IH.
  change (Re.group 1 [lo]) with lo. now rewrite float_number.
Qed.

End Floats.

Section Scan.

Lemma findall_from_skip (r : Re.regex) (u s : string) :
  Re.findall_from (String.length u) r (u +:+ s) = Re.findall_from 0 r s.
Proof.
  induction u as [| c u IH]; [reflexivity |]. rewrite append_cons. exact IH.
Qed.

Lemma km_match_nonempty u g : matches km_re u g -> u <> "".
Proof.
  intros (lo & w & Hn & _ & -> & _)%matches_km_re.
  destruct Hn as [[| c i] [Hne _] | [| c i] f [Hne _] _];
    try contradiction; discriminate.
Qed.

(** [re.findall] with the distance pattern reads the segment as [km_scan]
    describes. *)
Lemma findall_km_scan (n : nat) : forall s,
  String.length s <= n ->
  exists los,
    Re.findall km_re s = (fun lo => [lo]) <$> los /\ km_scan s los.
Proof.
  unfold Re.findall.
  induction n as [| n IH]; intros s Hlen.
  - destruct s; [| cbn in Hlen; lia].
    exists []. split; [| constructor]. cbn.
    destruct (Re.match_at km_re "") as [[g len] |] eqn:E; [| reflexivity].
    apply match_at_sound in E as (u & v & Hs & Hm & _).
    apply km_match_nonempty in Hm. destruct u; [contradiction | discriminate].
  - destruct s as [| c s].
    { apply (IH ""). cbn. lia. }
    cbn [Re.findall_from].
    destruct (Re.match_at km_re (String c s)) as [[g len] |] eqn:E.
    + apply match_at_sound in E as (u & v & Hs & Hm & ->).
      pose proof (km_match_nonempty _ _ Hm) as Hne.
      destruct u as [| c' u]; [contradiction |].
      rewrite append_cons in Hs. injection Hs as <- ->.
      replace (String.length (String c u) - 1) with (String.length u)
        by (cbn; lia).
      rewrite findall_from_skip.
      destruct (IH v) as (los & Hf & Hscan).
      { cbn in Hlen. rewrite length_append in Hlen. lia. }
      pose proof Hm as (lo & w & Hlo & Hw & Hu & ->)%matches_km_re.
      exists (lo :: los). rewrite Hf. split; [reflexivity |].
      apply km_scan_hit with (rest := v); [| exact Hscan].
      apply km_at_matches. exists (String c u). now rewrite append_cons.
    + destruct (IH s) as (los & Hf & Hscan); [cbn in Hlen; lia |].
      exists los. split; [exact Hf |].
      apply km_scan_skip; [| exact Hscan].
      intros lo rest (u & Hs & Hm)%km_at_matches.
      eapply match_at_none; eauto.
Qed.

Lemma km_scan_numbers s los : km_scan s los -> Forall number los.
Proof.
  induction 1 as [| | s lo rest los (w & Hlo & _) _ IH]; auto.
Qed.

Lemma km_scan_occurs s lo los : km_scan s (lo :: los) -> km_occurs s.
Proof.
  intros H. remember (lo :: los) as l eqn:El.
  induction H as [| c s l _ _ IH | s lo' rest l Hat _ _]; [discriminate | |].
  - destruct (IH El) as (pre & s' & lo1 & rest & -> & Hat).
    exists (String c pre), s', lo1, rest. auto.
  - exists "", s, lo', rest. auto.
Qed.

Lemma range_occurs_km_occurs s : range_occurs s -> km_occurs s.
Proof.
  intros (pre & s' & lo & hi & -> & w1 & w2 & w3 & rest
          & Hlo & Hhi & H1 & H2 & H3 & ->).
  exists (pre +:+ lo +:+ w1 +:+ "-" +:+ w2), (hi +:+ w3 +:+ "km" +:+ rest),
    hi, rest.
  split; [now rewrite !append_assoc |]. exists w3. auto.
Qed.

End Scan.

Section ExtractKm.

Lemma extract_km_range (segment : string) :
  range_occurs segment ->
  exists pre s lo hi,
    segment = pre +:+ s /\ range_at s lo hi /\
    (forall pre' s' lo' hi',
       segment = pre' +:+ s' -> range_at s' lo' hi' ->
       String.length pre <= String.length pre') /\
    (forall lo' hi', range_at s lo' hi' -> lo' = lo /\ hi' = hi) /\
    extract_km segment = Ok ((decimal_value lo + decimal_value hi) / 2)%Q.
Proof.
  intros Hocc. unfold extract_km.
  destruct (Re.search range_re segment) as [gs |] eqn:E.
  - apply search_sound in E as (pre & u & v & Hs & Hm & Hleft).
    pose proof Hm
      as (lo & w1 & w2 & hi & w3 & Hlo & Hhi & _ & _ & _ & _ & ->)
           %matches_range_re.
    assert (Hat : range_at (u +:+ v) lo hi)
      by (apply range_at_matches; eauto).
    exists pre, (u +:+ v), lo, hi.
    split; [exact Hs |]. split; [exact Hat |].
    split; [| split].
    + intros pre' s' lo' hi' Hs' (u' & v' & Hs'' & Hm')%range_at_matches.
      destruct (Nat.le_gt_cases (String.length pre) (String.length pre'))
        as [Hle | Hlt]; [exact Hle |].
      exfalso. eapply Hleft; eauto.
    + intros lo' hi' Hat'. eapply range_at_unique; eauto.
    + change (Re.group 1 [lo; hi]) with lo.
      change (Re.group 2 [lo; hi]) with hi.
      now rewrite !float_number.
  - exfalso. destruct Hocc as (pre & s & lo & hi & -> & Hat).
    apply range_at_matches in Hat as (u & v & -> & Hm).
    eapply search_none; eauto.
Qed.

Lemma extract_km_scan (segment : string) :
  ~ range_occurs segment ->
  exists los,
    km_scan segment los /\
    (forall los', km_scan segment los' -> los' = los) /\
    extract_km segment = Ok (sum (decimal_value <$> los)).
Proof.
  intros Hno. unfold extract_km.
  destruct (Re.search range_re segment) as [gs |] eqn:E.
  - exfalso. apply Hno.
    apply search_sound in E as (pre & u & v & Hs & Hm & _).
    pose proof Hm
      as (lo & w1 & w2 & hi & w3 & _ & _ & _ & _ & _ & _ & ->)
           %matches_range_re.
    exists pre, (u +:+ v), lo, hi. split; [exact Hs |].
    apply range_at_matches. eauto.
  - destruct (findall_km_scan (String.length segment) segment (le_n _))
      as (los & -> & Hscan).
    exists los. split; [exact Hscan |].
    split; [intros los' H'; eapply km_scan_unique; eauto |].
    rewrite for_list_floats by (eapply km_scan_numbers; eauto).
    reflexivity.
Qed.

(** [float] is only given the text of a group, so nothing is raised. *)
Lemma extract_km_returns (segment : string) :
  exists km, extract_km segment = Ok km.
Proof.
  destruct (Re.search range_re segment) as [gs |] eqn:E.
  - destruct (extract_km_range segment)
      as (_ & _ & lo & hi & _ & _ & _ & _ & ->); [| eauto].
    apply search_sound in E as (pre & u & v & Hs & Hm & _).
    pose proof Hm
      as (lo & w1 & w2 & hi & w3 & _ & _ & _ & _ & _ & _ & ->)
           %matches_range_re.
    exists pre, (u +:+ v), lo, hi. split; [exact Hs |].
    apply range_at_matches. eauto.
  - destruct (extract_km_scan segment) as (los & _ & _ & ->); [| eauto].
    intros (pre & s & lo & hi & -> & Hat).
    apply range_at_matches in Hat as (u & v & -> & Hm).
    eapply search_none; eauto.
Qed.

(** C2.  When a range [lo]-[hi]km occurs in the segment, the result is the
    mean of the bounds of the leftmost one (a position holds at most one
    range); otherwise it is the sum of the numbers of the distances met
    reading the segment from left to right (there is one such reading); a
    segment without any distance gives 0; the call never raises; "5-7km"
    gives 6 and "2.5km" gives 2.5. *)
Theorem extract_km_spec (segment : string) :
  (range_occurs segment ->
   exists pre s lo hi,
     segment = pre +:+ s /\ range_at s lo hi /\
     (forall pre' s' lo' hi',
        segment = pre' +:+ s' -> range_at s' lo' hi' ->
        String.length pre <= String.length pre') /\
     (forall lo' hi', range_at s lo' hi' -> lo' = lo /\ hi' = hi) /\
     extract_km segment = Ok ((decimal_value lo + decimal_value hi) / 2)%Q) /\
  (~ range_occurs segment ->
   exists los,
     km_scan segment los /\
     (forall los', km_scan segment los' -> los' = los) /\
     extract_km segment = Ok (sum (decimal_value <$> los))) /\
  (~ km_occurs segment -> extract_km segment = Ok 0%Q) /\
  (exists km, extract_km segment = Ok km) /\
  (exists km, extract_km "5-7km" = Ok km /\ (km == 6)%Q) /\
  (exists km, extract_km "2.5km" = Ok km /\ (km == 2.5)%Q).
Proof.
  split; [apply extract_km_range |].
  split; [apply extract_km_scan |].
  split; [| split; [| split]].
  - intros Hno.
    destruct (extract_km_scan segment) as (los & Hscan & _ & ->).
    { intros H. now apply Hno, range_occurs_km_occurs. }
    destruct los as [| lo los]; [reflexivity |].
    exfalso. eapply Hno, km_scan_occurs, Hscan.
  - apply extract_km_returns.
  - eexists. split; [vm_compute; reflexivity | reflexivity].
  - eexists. split; [vm_compute; reflexivity | reflexivity].
Qed.

End ExtractKm.

(** The range in "run 5-7km". *)
Lemma extract_km_spec_witness :
  range_occurs "run 5-7km" /\
  exists pre s lo hi,
    "run 5-7km" = pre +:+ s /\ range_at s lo hi /\
    extract_km "run 5-7km"
    = Ok ((decimal_value lo + decimal_value hi) / 2)%Q.
Proof.
  assert (Hocc : range_occurs "run 5-7km").
  { exists "run ", "5-7km", "5", "7". split; [reflexivity |].
    exists "", "", "", "".
    repeat split; try reflexivity;
      apply number_int; (split; [discriminate | reflexivity]). }
  split; [exact Hocc |].
  destruct (proj1 (extract_km_spec "run 5-7km") Hocc)
    as (pre & s & lo & hi & Hs & Hat & _ & _ & Hkm).
  exists pre, s, lo, hi. auto.
Defined.

Section SessionDistances.

Lemma extract_km_total (segment : string) :
  extract_km segment = Ok (km_of segment).
Proof.
  unfold km_of. destruct (extract_km_returns segment) as [km ->].
  reflexivity.
Qed.

Lemma segment_step_blank (d : distances) (segment : string) :
  Str.strip segment = "" -> segment_step d segment = Ok d.
Proof. intros H. unfold segment_step. now rewrite H. Qed.

(** One pass of the loop on a segment that is not blank: each discipline is
    tested on its own, so a segment may credit several of them. *)
Lemma segment_step_credit (d : distances) (segment : string) :
  Str.strip segment <> "" ->
  segment_step d segment
  = Ok {| swim := credit (has_swim (Str.strip segment)) (swim d)
                    SWIM_DISTANCE_KM;
          bike := credit (has_bike (Str.strip segment)) (bike d)
                    (km_of (Str.strip segment));
          run := credit (has_run (Str.strip segment)) (run d)
                    (km_of (Str.strip segment)) |}.
Proof.
  intros Hne. unfold segment_step, has_swim, has_bike, has_run, credit.
  destruct (String.eqb_spec (Str.strip segment) ""); [contradiction |].
  rewrite !extract_km_total.
  destruct (Str.contains "swim" _), (Str.contains "bike" _ || _),
    (Str.contains "run" _), d; reflexivity.
Qed.

Lemma sum_from_credit (P : string -> bool) (f : string -> Q) (acc : Q)
    (seg : string) (segs : list string) :
  fold_left Qplus (List.map f (List.filter P (seg :: segs))) acc
  = fold_left Qplus (List.map f (List.filter P segs))
      (credit (P seg) acc (f seg)).
Proof. cbn. unfold credit. now destruct (P seg). Qed.

Lemma for_each_segments (raw : list string) : forall d : distances,
  let segs := List.filter (fun seg => negb (String.eqb seg ""))
                (List.map Str.strip raw) in
  exists d',
    for_each segment_step raw d = Ok d' /\
    swim d' = fold_left Qplus
                (List.map (fun _ => SWIM_DISTANCE_KM)
                   (List.filter has_swim segs)) (swim d) /\
    bike d' = fold_left Qplus
                (List.map km_of (List.filter has_bike segs)) (bike d) /\
    run d' = fold_left Qplus
               (List.map km_of (List.filter has_run segs)) (run d).
Proof.
  induction raw as [| seg raw IH]; intros d; cbn zeta.
  - exists d. repeat split.
  - cbn [for_each List.map List.filter].
    destruct (String.eqb_spec (Str.strip seg) "") as [Hb | Hb]; cbn [negb].
    + rewrite segment_step_blank by exact Hb. apply IH.
    + rewrite segment_step_credit by exact Hb.
      rewrite !sum_from_credit.
      match goal with |- context [Ok ?x ≫= _] =>
        destruct (IH x) as (d' & Hd' & Hs & Hb' & Hr) end.
      exists d'. split; [exact Hd' |]. auto.
Qed.

Lemma sum_constant (x : Q) (l : list string) (acc : Q) :
  (fold_left Qplus (List.map (fun _ => x) l) acc
   == acc + inject_Z (Z.of_nat (length l)) * x)%Q.
Proof.
  revert acc. induction l as [| y l IH]; intros acc.
  - cbn. ring.
  - cbn [List.map fold_left length]. rewrite IH.
    rewrite Nat2Z.inj_succ, <- Z.add_1_r, inject_Z_plus. ring.
Qed.

(** C3.  The text is lowercased and split on plus signs; over its trimmed,
    non-blank segments, in order, swim receives the constant 2 once per
    segment that contains "swim" (whatever number the segment holds), bike
    receives the kilometres of every segment that contains "bike" or "cycle",
    and run the kilometres of every segment that contains "run"; the three
    tests are independent, so "bike/run 10km" credits 10 to bike and to
    run. *)
Theorem session_distances_spec (session_text : string) :
  exists d,
    session_distances session_text = Ok d /\
    swim d = sum (List.map (fun _ => SWIM_DISTANCE_KM)
                    (List.filter has_swim (segments session_text))) /\
    bike d = sum (List.map km_of
                    (List.filter has_bike (segments session_text))) /\
    run d = sum (List.map km_of
                   (List.filter has_run (segments session_text))) /\
    (swim d == 2 * inject_Z (Z.of_nat
                  (length (List.filter has_swim (segments session_text)))))%Q /\
    session_distances "Bike/Run 10km"
    = Ok {| swim := 0; bike := 0 + 10; run := 0 + 10 |}%Q /\
    session_distances "Swim 7km + swim"
    = Ok {| swim := 0 + 2 + 2; bike := 0; run := 0 |}%Q.
Proof.
  unfold session_distances, segments, sum.
  destruct (for_each_segments (Str.split "+" (Str.lower session_text))
              {| swim := 0; bike := 0; run := 0 |})
    as (d & Hd & Hs & Hb & Hr).
  exists d. split; [exact Hd |].
  split; [exact Hs |]. split; [exact Hb |]. split; [exact Hr |].
  split; [| split; vm_compute; reflexivity].
  rewrite Hs, sum_constant. unfold SWIM_DISTANCE_KM. cbn [swim]. ring.
Qed.

Lemma session_distances_total (session_text : string) :
  session_distances session_text = Ok (distances_of session_text).
Proof.
  unfold distances_of.
  destruct (for_each_segments (Str.split "+" (Str.lower session_text))
              {| swim := 0; bike := 0; run := 0 |}) as (d & Hd & _).
  unfold session_distances. now rewrite Hd.
Qed.

End SessionDistances.

(* ===================================================================== *)
(** * Properties of the aggregation *)
(* ===================================================================== *)

Section Aggregation.
Variables (session_state : gmap string value) (today : Z).

Local Abbreviation done := (is_done session_state today).
Local Abbreviation missed := (is_missed session_state today).
Local Abbreviation pending := (is_pending session_state today).

(** [tallies cs acc acc']: going from [acc] to [acc'] counts the cells [cs],
    each in its class, and adds the distances of the completed ones in the
    order of [cs]. *)
Definition tallies (cs : list cell) (acc acc' : stats) : Prop :=
  completed_count acc' = completed_count acc + length (List.filter done cs) /\
  missed_count acc' = missed_count acc + length (List.filter missed cs) /\
  gym_sessions acc'
  = gym_sessions acc
    + length (List.filter (fun c => done c && is_gym c) cs) /\
  swim_km acc'
  = fold_left Qplus
      (List.map (fun c => swim (distances_of (cell_text c)))
         (List.filter done cs)) (swim_km acc) /\
  bike_km acc'
  = fold_left Qplus
      (List.map (fun c => bike (distances_of (cell_text c)))
         (List.filter done cs)) (bike_km acc) /\
  run_km acc'
  = fold_left Qplus
      (List.map (fun c => run (distances_of (cell_text c)))
         (List.filter done cs)) (run_km acc).

Lemma tallies_nil (acc : stats) : tallies [] acc acc.
Proof. unfold tallies. cbn. repeat split; lia. Qed.

Lemma tallies_app (cs1 cs2 : list cell) (a b c : stats) :
  tallies cs1 a b -> tallies cs2 b c -> tallies (cs1 ++ cs2) a c.
Proof.
  intros (H1 & H2 & H3 & H4 & H5 & H6) (K1 & K2 & K3 & K4 & K5 & K6).
  unfold tallies.
  rewrite !List.filter_app, !List.map_app, !fold_left_app, !length_app.
  rewrite K1, K2, K3, K4, K5, K6, H1, H2, H3, H4, H5, H6.
  repeat split; lia.
Qed.

Lemma session_text_single (all : list string) (r : gmap string string)
    (col : string) :
  count_occ String.string_dec all col <= 1 ->
  session_text all r col = Ok (text_of r col).
Proof.
  intros H. unfold session_text.
  destruct (Nat.ltb_spec 1 (count_occ String.string_dec all col));
    [lia | reflexivity].
Qed.

Lemma session_text_repeated (all : list string) (r : gmap string string)
    (col : string) :
  1 < count_occ String.string_dec all col ->
  session_text all r col = Raise ValueError.
Proof.
  intros H. unfold session_text.
  destruct (Nat.ltb_spec 1 (count_occ String.string_dec all col));
    [reflexivity | lia].
Qed.

(** One pass of the inner loop counts its cell, when the name of the column
    stands once in the header. *)
Lemma count_cell_tallies (all : list string) (w : nat) (week_end : Z)
    (r : gmap string string) (acc : stats) (col : string) :
  count_occ String.string_dec all col <= 1 ->
  exists acc',
    count_cell session_state today all w week_end r acc col = Ok acc' /\
    tallies [{| cell_week := w; cell_week_end := week_end;
                cell_row := r; cell_col := col |}] acc acc'.
Proof.
  intros Hone.
  unfold count_cell, tallies, is_done, is_missed, is_gym, classify, cell_text.
  rewrite (session_text_single all r col Hone).
  cbn [mbind result_bind].
  cbn [List.filter List.map cell_week cell_week_end cell_row cell_col].
  rewrite session_distances_total.
  destruct (completed session_state (completion_key w col)).
  - eexists. split; [reflexivity |]. cbn.
    destruct (Str.contains "gym" _); cbn; repeat split; lia.
  - destruct (week_end <? today)%Z;
      (eexists; split; [reflexivity |]); cbn; repeat split; lia.
Qed.

Lemma count_cells_tallies (all : list string) (w : nat) (week_end : Z)
    (r : gmap string string) (cols : list string) :
  Forall (fun col => count_occ String.string_dec all col <= 1) cols ->
  forall acc : stats,
  exists acc',
    for_each (count_cell session_state today all w week_end r) cols acc
    = Ok acc' /\
    tallies (List.map (fun col => {| cell_week := w;
                                     cell_week_end := week_end;
                                     cell_row := r; cell_col := col |}) cols)
            acc acc'.
Proof.
  induction 1 as [| col cols Hone _ IH]; intros acc.
  - exists acc. split; [reflexivity | apply tallies_nil].
  - destruct (count_cell_tallies all w week_end r acc col Hone)
      as (acc1 & E1 & T1).
    destruct (IH acc1) as (acc2 & E2 & T2).
    exists acc2. cbn [for_each]. rewrite E1. split; [exact E2 |].
    exact (tallies_app [_] _ _ _ _ T1 T2).
Qed.

Lemma count_row_unfold (week_starts : list Z) (cols : list string)
    (acc : stats) (w : nat) (r : gmap string string) :
  count_row session_state today week_starts cols acc (w, r)
  = match week_starts !! w with
    | Some week_start =>
        for_each (count_cell session_state today cols w (week_start + 6) r)
                 cols acc
    | None => Raise IndexError
    end.
Proof. reflexivity. Qed.

Lemma nodup_single (cols : list string) :
  NoDup cols ->
  Forall (fun col => count_occ String.string_dec cols col <= 1) cols.
Proof.
  intros Hnd. apply List.Forall_forall. intros col _.
  apply NoDup_ListNoDup in Hnd.
  now apply (proj1 (List.NoDup_count_occ String.string_dec cols)).
Qed.

Lemma count_rows_tallies (week_starts : list Z) (cols : list string)
    (irs : list (nat * gmap string string)) :
  NoDup cols ->
  forall acc : stats,
  Forall (fun ir => is_Some (week_starts !! ir.1)) irs ->
  exists acc',
    for_each (count_row session_state today week_starts cols) irs acc
    = Ok acc' /\
    tallies (flat_map (row_cells week_starts cols) irs) acc acc'.
Proof.
  intros Hnd.
  induction irs as [| [w r] irs IH]; intros acc Hin.
  - exists acc. split; [reflexivity | apply tallies_nil].
  - apply Forall_cons in Hin as [[week_start Hw] Hin].
    cbn [for_each flat_map]. rewrite count_row_unfold.
    unfold row_cells at 1. cbn [fst snd] in *. rewrite Hw.
    destruct (count_cells_tallies cols w (week_start + 6) r cols
                (nodup_single cols Hnd) acc)
      as (acc1 & E1 & T1).
    destruct (IH acc1 Hin) as (acc2 & E2 & T2).
    exists acc2. rewrite E1. split; [exact E2 |].
    eapply tallies_app; eauto.
Qed.

Lemma iterrows_length (rows : list (gmap string string)) :
  length (iterrows rows) = length rows.
Proof. unfold iterrows. rewrite length_combine, length_seq. lia. Qed.

Lemma iterrows_in_range (rows : list (gmap string string)) :
  Forall (fun ir => ir.1 < length rows) (iterrows rows).
Proof.
  unfold iterrows. apply List.Forall_forall. intros [w r] Hin.
  apply in_combine_l, in_seq in Hin. cbn. lia.
Qed.

Lemma cells_length (week_starts : list Z) (cols : list string)
    (irs : list (nat * gmap string string)) :
  Forall (fun ir => is_Some (week_starts !! ir.1)) irs ->
  length (flat_map (row_cells week_starts cols) irs)
  = length irs * length cols.
Proof.
  induction 1 as [| [w r] irs [week_start Hw] _ IH]; [reflexivity |].
  cbn [flat_map length]. rewrite length_app, IH.
  unfold row_cells. cbn [fst] in *. rewrite Hw, length_map. lia.
Qed.

Lemma classes_partition (cs : list cell) :
  length (List.filter done cs) + length (List.filter missed cs)
  + length (List.filter pending cs) = length cs.
Proof.
  induction cs as [| c cs IH]; [reflexivity |].
  cbn [List.filter].
  destruct (done c) eqn:E1, (missed c) eqn:E2, (pending c) eqn:E3;
    unfold is_done, is_missed, is_pending in E1, E2, E3;
    destruct (classify session_state today c); try discriminate;
    cbn [length]; lia.
Qed.


End Aggregation.


(* ===================================================================== *)
(** * Further properties of the calendar and of the overview figures *)
(* ===================================================================== *)

Section Weeks.
Local Open Scope Z_scope.

Lemma align_to_monday_is_monday (d : Z) : weekday (align_to_monday d) = 0.
Proof.
  unfold align_to_monday.
  destruct (offset_cases d) as [[H0 ->] | [Hpos ->]].
  - now rewrite Z.add_0_r.
  - unfold weekday in *.
    replace (d + (7 - (d + 6) mod 7) + 6) with (d + 6 - (d + 6) mod 7 + 1 * 7)
      by lia.
    rewrite Z.mod_add by lia.
    rewrite Zminus_mod, Z.mod_mod, Z.sub_diag by lia. reflexivity.
Qed.

Lemma week_starts_elements (raw ws : list Z) :
  week_starts raw = Some ws ->
  exists first rest,
    raw = first :: rest /\
    forall i d, ws !! i = Some d ->
      (i < length raw)%nat /\ d = align_to_monday first + 7 * Z.of_nat i.
Proof.
  destruct raw as [| first rest]; [discriminate |].
  intros Hws. exists first, rest. split; [reflexivity |].
  intros i d Hd.
  assert (Hi : (i < length (first :: rest))%nat).
  { rewrite <- (week_starts_length _ _ Hws). eapply lookup_lt_Some; eauto. }
  split; [exact Hi |].
  rewrite (week_starts_lookup _ _ _ _ Hws Hi) in Hd. congruence.
Qed.

Lemma weekday_sunday (d : Z) : weekday d = 0 -> weekday (d + 6) = 6.
Proof. unfold weekday. intros Hm. rewrite Zplus_mod, Hm. reflexivity. Qed.

(** X2.  Every derived week start is a Monday, whatever the weekday of the first
    date of the table, and every week ends on a Sunday, the week of a
    one-row plan and the last week included: the plan starts on a Monday
    and ends on a Sunday.  The weeks come in increasing order without
    overlap: a later week starts after the Sunday of an earlier one. *)
Theorem week_starts_mondays (raw ws : list Z) :
  week_starts raw = Some ws ->
  (forall i a, ws !! i = Some a -> weekday a = 0 /\ weekday (a + 6) = 6) /\
  (forall s e, plan_start ws = Some s -> plan_end ws = Some e ->
     weekday s = 0 /\ weekday e = 6 /\ s < e) /\
  (forall i j a b, ws !! i = Some a -> ws !! j = Some b -> (i < j)%nat ->
     a + 6 < b).
Proof.
  intros Hws.
  destruct (week_starts_elements _ _ Hws) as (first & rest & -> & Hel).
  assert (Hday : forall i a, ws !! i = Some a ->
            weekday a = 0 /\ weekday (a + 6) = 6).
  { intros i a Ha. destruct (Hel _ _ Ha) as [_ ->].
    assert (Hm : weekday (align_to_monday first + 7 * Z.of_nat i) = 0)
      by (rewrite weekday_add_7; apply align_to_monday_is_monday).
    split; [exact Hm | now apply weekday_sunday]. }
  split; [exact Hday |]. split.
  - intros s e Hs He. unfold plan_start in Hs. unfold plan_end in He.
    rewrite head_lookup in Hs. rewrite last_lookup in He.
    destruct (ws !! Init.Nat.pred (length ws)) as [d |] eqn:Hd;
      [| discriminate].
    cbn in He. injection He as <-.
    destruct (Hday _ _ Hs) as [Hs0 _]. destruct (Hday _ _ Hd) as [_ Hd6].
    split; [exact Hs0 |]. split; [exact Hd6 |].
    destruct (Hel _ _ Hs) as [_ ->]. destruct (Hel _ _ Hd) as [_ ->]. lia.
  - intros i j a b Ha Hb Hij.
    destruct (Hel _ _ Ha) as [_ ->]. destruct (Hel _ _ Hb) as [_ ->]. lia.
Qed.

(** The search of lines 173-176 over weeks that follow each other. *)
Lemma find_week_progression (today base : Z) (n : nat) : forall k : nat,
  find_week today ((fun i => base + 7 * Z.of_nat i) <$> seq k n) k
  = if (base + 7 * Z.of_nat k <=? today)
       && (today <? base + 7 * Z.of_nat (k + n))
    then Some (Z.to_nat ((today - base) / 7))
    else None.
Proof.
  induction n as [| n IH]; intros k.
  - cbn. destruct (Z.leb_spec (base + 7 * Z.of_nat k) today),
      (Z.ltb_spec today (base + 7 * Z.of_nat (k + 0))); try reflexivity. lia.
  - cbn [seq fmap list_fmap find_week]. rewrite IH.
    destruct (Z.leb_spec (base + 7 * Z.of_nat k) today) as [H1 | H1],
      (Z.leb_spec today (base + 7 * Z.of_nat k + 6)) as [H2 | H2];
      cbn [andb].
    + destruct (Z.ltb_spec today (base + 7 * Z.of_nat (k + S n))); [| lia].
      f_equal.
      assert ((today - base) / 7 = Z.of_nat k)
        by (symmetry;
            apply (Z.div_unique _ _ _ (today - base - 7 * Z.of_nat k));
            lia).
      lia.
    + destruct (Z.leb_spec (base + 7 * Z.of_nat (S k)) today); [| lia].
      replace (S k + n)%nat with (k + S n)%nat by lia. reflexivity.
    + destruct (Z.leb_spec (base + 7 * Z.of_nat (S k)) today); [lia |].
      reflexivity.
    + lia.
Qed.

(** X3.  The current week.  The index is always one of a row; while the plan
    runs it is the index of the week whose Monday-to-Sunday span holds
    [today], that is the number of whole weeks since the plan started; before
    the plan it is 0 and after the plan it is the last index. *)
Theorem current_week_idx_spec (raw ws : list Z) (s e today : Z) :
  week_starts raw = Some ws ->
  plan_start ws = Some s -> plan_end ws = Some e ->
  0 <= current_week_idx ws e today < Z.of_nat (length ws) /\
  (s <= today <= e ->
   current_week_idx ws e today = (today - s) / 7 /\
   exists week_start,
     ws !! Z.to_nat (current_week_idx ws e today) = Some week_start /\
     week_start <= today <= week_start + 6) /\
  (today < s -> current_week_idx ws e today = 0) /\
  (e < today -> current_week_idx ws e today = Z.of_nat (length ws) - 1).
Proof.
  intros Hws Hs He.
  pose proof (week_starts_length _ _ Hws) as Hlen.
  destruct raw as [| first rest]; [discriminate |].
  rewrite week_starts_cons in Hws.
  assert (Hw : ws = (fun i => align_to_monday first + 7 * Z.of_nat i)
                      <$> seq 0 (length (first :: rest))) by congruence.
  remember (length (first :: rest)) as n eqn:Hn'. cbn [length] in Hn'.
  assert (Hn : (0 < n)%nat) by lia.
  assert (Hs' : s = align_to_monday first).
  { unfold plan_start in Hs. rewrite head_lookup, Hw, list_lookup_fmap in Hs.
    rewrite lookup_seq_lt in Hs by exact Hn. cbn in Hs.
    injection Hs as <-. lia. }
  assert (He' : e = s + 7 * Z.of_nat n - 1).
  { unfold plan_end in He. rewrite last_lookup, Hlen in He.
    rewrite Hw, list_lookup_fmap, lookup_seq_lt in He by lia.
    cbn in He. injection He as <-. lia. }
  clear Hws Hs He. rewrite Hlen. clear Hlen. subst ws.
  unfold current_week_idx.
  rewrite find_week_progression, length_fmap, length_seq, <- Hs'.
  replace (s + 7 * Z.of_nat 0%nat) with s by lia.
  replace (s + 7 * Z.of_nat (0 + n)) with (e + 1) by lia.
  assert (Hdiv : s <= today <= e -> 0 <= (today - s) / 7 < Z.of_nat n).
  { intros H. split; [apply Z.div_pos; lia |].
    apply Z.div_lt_upper_bound; lia. }
  destruct (Z.leb_spec s today) as [H1 | H1],
    (Z.ltb_spec today (e + 1)) as [H2 | H2]; cbn [andb].
  - specialize (Hdiv ltac:(lia)).
    rewrite Z2Nat.id by lia.
    split; [lia |]. split; [| split; intros; lia].
    intros _. split; [reflexivity |].
    exists (s + 7 * ((today - s) / 7)).
    split.
    + rewrite list_lookup_fmap, lookup_seq_lt by lia.
      cbn. now rewrite Z2Nat.id by lia.
    + pose proof (Z.mod_pos_bound (today - s) 7 ltac:(lia)).
      pose proof (Z.div_mod (today - s) 7 ltac:(lia)). lia.
  - destruct (Z.gtb_spec today e); [| lia].
    split; [lia |]. repeat split; intros; lia.
  - destruct (Z.gtb_spec today e); [lia |].
    split; [lia |]. repeat split; intros; lia.
  - lia.
Qed.

Lemma ratio_strict (a p : Z) :
  0 < p -> a < p -> (inject_Z a / inject_Z p * 100 < 100)%Q.
Proof.
  intros Hp Hap.
  assert (H0 : (0 < inject_Z p)%Q)
    by (change 0%Q with (inject_Z 0); now rewrite <- Zlt_Qlt).
  apply Qlt_le_trans with (inject_Z p / inject_Z p * 100)%Q.
  - apply Qmult_lt_compat_r; [reflexivity |].
    unfold Qdiv. apply Qmult_lt_compat_r.
    + now apply Qinv_lt_0_compat.
    + now rewrite <- Zlt_Qlt.
  - rewrite ratio_full by exact Hp. apply Qle_refl.
Qed.

(** X4.  The days left and the progress agree on when the plan is over: no day
    is left exactly from the last day of the plan on, which is exactly when
    the progress shows 100; before that the days left are the distance to
    the last day, and they never are negative. *)
Theorem days_remaining_spec (s e today : Z) :
  s < e ->
  0 <= days_remaining e today /\
  (days_remaining e today = 0 <-> e <= today) /\
  (e <= today <-> (plan_progress_pct s e today == 100)%Q) /\
  (today <= e -> days_remaining e today = e - today).
Proof.
  intros Hse. unfold days_remaining.
  split; [lia |]. split; [lia |]. split; [| lia].
  unfold plan_progress_pct.
  destruct (Z.leb_spec today s) as [H1 | H1].
  - split; [lia | discriminate].
  - destruct (Z.geb_spec today e) as [H2 | H2].
    + split; [reflexivity | lia].
    + split; [lia |]. intros Heq. exfalso.
      pose proof (ratio_strict (today - s) (plan_days s e)
                    (plan_days_pos s e)) as Hlt.
      rewrite plan_days_span in Hlt by lia.
      rewrite plan_days_span in Heq by lia.
      rewrite Heq in Hlt. apply (Qlt_irrefl 100), Hlt. lia.
Qed.

End Weeks.

(** A plan of one row whose date is the Wednesday of ordinal 3: its only week
    runs from the Monday of ordinal 8 to the Sunday of ordinal 14. *)
Lemma week_starts_mondays_witness :
  week_starts [3]%Z = Some [8]%Z /\
  (weekday 8 = 0 /\ weekday 14 = 6 /\ 8 < 14)%Z.
Proof.
  split; [reflexivity |].
  exact (proj1 (proj2 (week_starts_mondays [3]%Z [8]%Z eq_refl))
           8%Z 14%Z eq_refl eq_refl).
Defined.

(** The same plan on the Wednesday of its second week. *)
Lemma current_week_idx_spec_witness :
  week_starts [8; 0; 0]%Z = Some [8; 15; 22]%Z /\
  (0 <= current_week_idx [8; 15; 22] 28 17 < 3)%Z.
Proof.
  split; [reflexivity |].
  apply (current_week_idx_spec [8; 0; 0]%Z [8; 15; 22]%Z 8%Z 28%Z 17%Z);
    reflexivity.
Defined.

Lemma days_remaining_spec_witness :
  (8 < 28)%Z /\ (0 <= days_remaining 28 17)%Z.
Proof.
  split; [lia |]. apply (days_remaining_spec 8 28 17). lia.
Defined.

Section Overview.
Implicit Types (rows : list (gmap string string)) (cols : list string)
  (session_state : gmap string value).

(** The result of the aggregation and the cells it went through, for session
    columns of distinct names. *)
Lemma aggregate_tallies rows cols (raw ws : list Z) session_state (today : Z) :
  week_starts raw = Some ws -> length raw = length rows -> NoDup cols ->
  exists st,
    aggregate rows cols ws session_state today = Ok st /\
    tallies session_state today (plan_cells rows cols ws) stats0 st /\
    length (plan_cells rows cols ws) = total_sessions (length rows) cols.
Proof.
  intros Hws Hlen Hnd.
  assert (Hin : Forall (fun ir => is_Some (ws !! ir.1)) (iterrows rows)).
  { eapply Forall_impl; [apply iterrows_in_range |].
    intros [w r] Hw. apply lookup_lt_is_Some.
    rewrite (week_starts_length _ _ Hws), Hlen. exact Hw. }
  destruct (count_rows_tallies session_state today ws cols (iterrows rows)
              Hnd stats0 Hin) as (st & E & T).
  exists st. split; [exact E |]. split; [exact T |].
  unfold plan_cells, total_sessions.
  now rewrite cells_length, iterrows_length.
Qed.

Lemma filter_length_le {A} (p q : A -> bool) (l : list A) :
  (forall x, p x = true -> q x = true) ->
  length (List.filter p l) <= length (List.filter q l).
Proof.
  intros Hpq. induction l as [| x l IH]; [reflexivity |]. cbn.
  destruct (p x) eqn:Hp.
  - rewrite (Hpq x Hp). cbn. lia.
  - destruct (q x); cbn; lia.
Qed.

Lemma pct_bounds (count total : nat) :
  count <= total ->
  (0 <= completed_pct count total <= 100)%Q /\
  missed_pct count total = completed_pct count total.
Proof.
  intros Hle. split; [| reflexivity]. unfold completed_pct.
  destruct (Nat.eqb_spec total 0) as [-> | Hne]; [split; discriminate |].
  assert (Hp : (0 < Z.of_nat total)%Z) by lia.
  split.
  - eapply Qle_trans;
      [| apply (ratio_monotone 0 (Z.of_nat count)); [exact Hp | lia]].
    rewrite ratio_zero. apply Qle_refl.
  - eapply Qle_trans;
      [apply (ratio_monotone (Z.of_nat count) (Z.of_nat total));
       [exact Hp | lia] |].
    rewrite ratio_full by exact Hp. apply Qle_refl.
Qed.

(** X5.  The percentages of the overview, for session columns of distinct
    names.  Gym sessions are completed sessions; completed and missed cells
    together never exceed the number of sessions, and each of the two
    percentages lies between 0 and 100. *)
Theorem percentages_bounded rows cols (raw ws : list Z) session_state
    (today : Z) :
  week_starts raw = Some ws -> length raw = length rows -> NoDup cols ->
  exists st,
    aggregate rows cols ws session_state today = Ok st /\
    gym_sessions st <= completed_count st /\
    completed_count st + missed_count st
    <= total_sessions (length rows) cols /\
    (0 <= completed_pct (completed_count st)
            (total_sessions (length rows) cols) <= 100)%Q /\
    (0 <= missed_pct (missed_count st)
            (total_sessions (length rows) cols) <= 100)%Q.
Proof.
  intros Hws Hlen Hnd.
  destruct (aggregate_tallies rows cols raw ws session_state today Hws Hlen
              Hnd)
    as (st & E & (T1 & T2 & T3 & _) & Hn).
  exists st. split; [exact E |].
  pose proof (classes_partition session_state today
                (plan_cells rows cols ws)) as Hp.
  cbn in T1, T2, T3.
  split.
  { rewrite T1, T3. apply filter_length_le.
    intros c Hc. now apply andb_prop in Hc as [Hc _]. }
  assert (Hsum : completed_count st + missed_count st
                 <= total_sessions (length rows) cols) by lia.
  split; [exact Hsum |].
  split; [apply pct_bounds; lia |].
  destruct (pct_bounds (missed_count st) (total_sessions (length rows) cols))
    as [Hb ->]; [lia | exact Hb].
Qed.

Lemma is_done_any_day session_state (t1 t2 : Z) (c : cell) :
  is_done session_state t1 c = is_done session_state t2 c.
Proof.
  unfold is_done, classify.
  destruct (completed session_state _); [reflexivity |].
  now destruct (_ <? t1)%Z, (_ <? t2)%Z.
Qed.

Lemma is_missed_later session_state (t1 t2 : Z) (c : cell) :
  (t1 <= t2)%Z ->
  is_missed session_state t1 c = true -> is_missed session_state t2 c = true.
Proof.
  unfold is_missed, classify. intros Hle.
  destruct (completed session_state _); [discriminate |].
  destruct (Z.ltb_spec (cell_week_end c) t1); [| discriminate].
  destruct (Z.ltb_spec (cell_week_end c) t2); [reflexivity | lia].
Qed.

(** X6.  The passing of time, for session columns of distinct names.  Between
    two days, the earlier first, what is completed and the distances stay as
    they are, and the missed count can only grow. *)
Theorem missed_grows_with_time rows cols (raw ws : list Z) session_state
    (t1 t2 : Z) :
  week_starts raw = Some ws -> length raw = length rows -> NoDup cols ->
  (t1 <= t2)%Z ->
  exists st1 st2,
    aggregate rows cols ws session_state t1 = Ok st1 /\
    aggregate rows cols ws session_state t2 = Ok st2 /\
    completed_count st1 = completed_count st2 /\
    gym_sessions st1 = gym_sessions st2 /\
    swim_km st1 = swim_km st2 /\ bike_km st1 = bike_km st2 /\
    run_km st1 = run_km st2 /\
    missed_count st1 <= missed_count st2.
Proof.
  intros Hws Hlen Hnd Hle.
  destruct (aggregate_tallies rows cols raw ws session_state t1 Hws Hlen Hnd)
    as (st1 & E1 & (A1 & A2 & A3 & A4 & A5 & A6) & _).
  destruct (aggregate_tallies rows cols raw ws session_state t2 Hws Hlen Hnd)
    as (st2 & E2 & (B1 & B2 & B3 & B4 & B5 & B6) & _).
  exists st1, st2. split; [exact E1 |]. split; [exact E2 |].
  assert (Hd : List.filter (is_done session_state t1) (plan_cells rows cols ws)
               = List.filter (is_done session_state t2)
                   (plan_cells rows cols ws)).
  { apply List.filter_ext. intros c. apply is_done_any_day. }
  assert (Hg : List.filter (fun c => is_done session_state t1 c && is_gym c)
                 (plan_cells rows cols ws)
               = List.filter (fun c => is_done session_state t2 c && is_gym c)
                   (plan_cells rows cols ws)).
  { apply List.filter_ext. intros c.
    now rewrite (is_done_any_day session_state t1 t2). }
  rewrite A1, B1, A3, B3, A4, B4, A5, B5, A6, B6, A2, B2, Hd, Hg.
  repeat split.
  cbn. apply filter_length_le. intros c. now apply is_missed_later.
Qed.

(** Where the cells of the plan lie in time. *)
Lemma plan_cells_weeks rows cols (ws : list Z) (c : cell) :
  In c (plan_cells rows cols ws) ->
  exists week_start,
    ws !! cell_week c = Some week_start /\
    cell_week_end c = (week_start + 6)%Z.
Proof.
  unfold plan_cells. rewrite in_flat_map.
  intros ([w r] & _ & Hc). unfold row_cells in Hc. cbn [fst snd] in Hc.
  destruct (ws !! w) as [week_start |] eqn:Hw; [| contradiction].
  apply in_map_iff in Hc as (col & <- & _). cbn. eauto.
Qed.

Lemma filter_none {A} (p : A -> bool) (l : list A) :
  (forall x, In x l -> p x = false) -> List.filter p l = [].
Proof.
  induction l as [| x l IH]; [reflexivity |]. intros H. cbn.
  rewrite (H x (or_introl eq_refl)). apply IH. intros y Hy. apply H. now right.
Qed.

(** X7.  The ends of the plan, for session columns of distinct names.  Once the
    last day of the plan has passed no cell is pending: every session is
    completed or missed.  Up to the Sunday of the first week nothing is
    missed. *)
Theorem plan_ends rows cols (raw ws : list Z) session_state
    (s e today : Z) :
  week_starts raw = Some ws -> length raw = length rows -> NoDup cols ->
  plan_start ws = Some s -> plan_end ws = Some e ->
  exists st,
    aggregate rows cols ws session_state today = Ok st /\
    ((e < today)%Z ->
     completed_count st + missed_count st
     = total_sessions (length rows) cols) /\
    ((today <= s + 6)%Z -> missed_count st = 0).
Proof.
  intros Hws Hlen Hnd Hs He.
  destruct (aggregate_tallies rows cols raw ws session_state today Hws Hlen
              Hnd)
    as (st & E & (T1 & T2 & _) & Hn).
  exists st. split; [exact E |]. cbn in T1, T2.
  pose proof (classes_partition session_state today
                (plan_cells rows cols ws)) as Hp.
  pose proof (week_starts_length _ _ Hws) as Hl.
  destruct (week_starts_elements _ _ Hws) as (first & rest & Hraw & Hel).
  assert (Hs' : s = align_to_monday first).
  { unfold plan_start in Hs. rewrite head_lookup in Hs.
    destruct (Hel _ _ Hs) as [_ ->]. lia. }
  assert (He' : (e = s + 7 * Z.of_nat (length raw) - 1)%Z).
  { unfold plan_end in He. rewrite last_lookup in He.
    destruct (ws !! Init.Nat.pred (length ws)) as [d |] eqn:Hd;
      [| discriminate].
    destruct (Hel _ _ Hd) as [Hlt ->]. cbn in He. injection He as <-.
    rewrite Hl in *. lia. }
  assert (Hspan : forall c, In c (plan_cells rows cols ws) ->
            (s + 6 <= cell_week_end c <= e)%Z).
  { intros c (week_start & Hw & ->)%plan_cells_weeks.
    destruct (Hel _ _ Hw) as [Hlt ->]. lia. }
  split.
  - intros Hover.
    rewrite (filter_none (is_pending session_state today)) in Hp;
      [cbn in Hp; lia |].
    intros c Hc. specialize (Hspan c Hc).
    unfold is_pending, classify.
    destruct (completed session_state _); [reflexivity |].
    destruct (Z.ltb_spec (cell_week_end c) today); [reflexivity | lia].
  - intros Hfirst.
    rewrite (filter_none (is_missed session_state today)) in T2; [exact T2 |].
    intros c Hc. specialize (Hspan c Hc).
    unfold is_missed, classify.
    destruct (completed session_state _); [reflexivity |].
    destruct (Z.ltb_spec (cell_week_end c) today); [lia | reflexivity].
Qed.

End Overview.

(** The two-week plan of the aggregation example. *)
Lemma percentages_bounded_witness :
  week_starts [8; 15]%Z = Some [8; 15]%Z /\ NoDup ["Session 1"] /\
  exists st,
    aggregate [{["Session 1" := "Run 5km"]}; {["Session 1" := "Gym"]}]
      ["Session 1"] [8; 15]%Z
      {["completed_0_session_1" := VBool true]} 16%Z = Ok st /\
    completed_count st + missed_count st <= 2.
Proof.
  assert (Hnd : NoDup ["Session 1"]) by apply NoDup_singleton.
  split; [reflexivity |]. split; [exact Hnd |].
  destruct (percentages_bounded
              [{["Session 1" := "Run 5km"]}; {["Session 1" := "Gym"]}]
              ["Session 1"] [8; 15]%Z [8; 15]%Z
              {["completed_0_session_1" := VBool true]} 16%Z
              eq_refl eq_refl Hnd) as (st & E & _ & H & _).
  exists st. split; [exact E | exact H].
Defined.

Lemma missed_grows_with_time_witness :
  week_starts [8; 15]%Z = Some [8; 15]%Z /\ NoDup ["Session 1"] /\
  (16 <= 40)%Z /\
  exists st1 st2,
    aggregate [{["Session 1" := "Run 5km"]}; {["Session 1" := "Gym"]}]
      ["Session 1"] [8; 15]%Z ∅ 16%Z = Ok st1 /\
    aggregate [{["Session 1" := "Run 5km"]}; {["Session 1" := "Gym"]}]
      ["Session 1"] [8; 15]%Z ∅ 40%Z = Ok st2 /\
    missed_count st1 <= missed_count st2.
Proof.
  assert (Hnd : NoDup ["Session 1"]) by apply NoDup_singleton.
  split; [reflexivity |]. split; [exact Hnd |]. split; [lia |].
  destruct (missed_grows_with_time
              [{["Session 1" := "Run 5km"]}; {["Session 1" := "Gym"]}]
              ["Session 1"] [8; 15]%Z [8; 15]%Z ∅ 16%Z 40%Z
              eq_refl eq_refl Hnd ltac:(lia))
    as (st1 & st2 & E1 & E2 & _ & _ & _ & _ & _ & H).
  exists st1, st2. auto.
Defined.

Lemma plan_ends_witness :
  week_starts [8; 15]%Z = Some [8; 15]%Z /\ NoDup ["Session 1"] /\
  plan_start [8; 15]%Z = Some 8%Z /\ plan_end [8; 15]%Z = Some 21%Z /\
  exists st,
    aggregate [{["Session 1" := "Run 5km"]}; {["Session 1" := "Gym"]}]
      ["Session 1"] [8; 15]%Z ∅ 22%Z = Ok st /\
    completed_count st + missed_count st = 2.
Proof.
  assert (Hnd : NoDup ["Session 1"]) by apply NoDup_singleton.
  split; [reflexivity |]. split; [exact Hnd |].
  split; [reflexivity |]. split; [reflexivity |].
  destruct (plan_ends
              [{["Session 1" := "Run 5km"]}; {["Session 1" := "Gym"]}]
              ["Session 1"] [8; 15]%Z [8; 15]%Z ∅ 8%Z 21%Z 22%Z
              eq_refl eq_refl Hnd eq_refl eq_refl) as (st & E & H & _).
  exists st. split; [exact E |]. apply H. lia.
Defined.

(* ===================================================================== *)
(** * The table, the planned days and a restart *)
(* ===================================================================== *)

Section Table.
Implicit Types (rows : list (gmap string string)) (cols : list string)
  (session_state : gmap string value).

Lemma status_class_classify session_state (today : Z) (c : cell) :
  status_class session_state today (cell_week c) (cell_week_end c)
    (cell_col c)
  = match classify session_state today c with
    | Done => "completed"
    | Missed => "missed"
    | Pending => "pending"
    end.
Proof.
  unfold status_class, classify.
  destruct (completed session_state _); [reflexivity |].
  now destruct (_ <? _)%Z.
Qed.

(** X8.  The table and the overview agree, for session columns of distinct
    names: the cells drawn as completed are as many as the completed count,
    the cells drawn as missed as many as the missed count, and the others
    are drawn as pending. *)
Theorem table_agrees_with_overview rows cols (raw ws : list Z) session_state
    (today : Z) :
  week_starts raw = Some ws -> length raw = length rows -> NoDup cols ->
  let shown c :=
    status_class session_state today (cell_week c) (cell_week_end c)
      (cell_col c) in
  exists st,
    aggregate rows cols ws session_state today = Ok st /\
    completed_count st
    = length (List.filter (fun c => String.eqb (shown c) "completed")
                (plan_cells rows cols ws)) /\
    missed_count st
    = length (List.filter (fun c => String.eqb (shown c) "missed")
                (plan_cells rows cols ws)) /\
    completed_count st + missed_count st
    + length (List.filter (fun c => String.eqb (shown c) "pending")
                (plan_cells rows cols ws))
    = total_sessions (length rows) cols.
Proof.
  intros Hws Hlen Hnd shown.
  destruct (aggregate_tallies rows cols raw ws session_state today Hws Hlen
              Hnd)
    as (st & E & (T1 & T2 & _) & Hn).
  exists st. split; [exact E |]. cbn in T1, T2.
  pose proof (classes_partition session_state today
                (plan_cells rows cols ws)) as Hp.
  assert (Hd : forall c, String.eqb (shown c) "completed"
                         = is_done session_state today c).
  { intros c. unfold shown, is_done. rewrite status_class_classify.
    now destruct (classify session_state today c). }
  assert (Hm : forall c, String.eqb (shown c) "missed"
                         = is_missed session_state today c).
  { intros c. unfold shown, is_missed. rewrite status_class_classify.
    now destruct (classify session_state today c). }
  assert (Hpe : forall c, String.eqb (shown c) "pending"
                          = is_pending session_state today c).
  { intros c. unfold shown, is_pending. rewrite status_class_classify.
    now destruct (classify session_state today c). }
  rewrite (List.filter_ext _ _ Hd), (List.filter_ext _ _ Hm),
    (List.filter_ext _ _ Hpe).
  repeat split; lia.
Qed.

Lemma for_each_ext {A S} (f g : S -> A -> result S) (l : list A) :
  (forall acc x, In x l -> f acc x = g acc x) ->
  forall acc, for_each f l acc = for_each g l acc.
Proof.
  induction l as [| x l IH]; intros H acc; [reflexivity |].
  cbn [for_each]. rewrite (H acc x (or_introl eq_refl)).
  destruct (g acc x) as [acc' | e]; [| reflexivity].
  cbn. apply IH. intros a y Hy. apply H. now right.
Qed.

(** The aggregation reads the session state through the completion flags of
    the grid and through nothing else. *)
Lemma aggregate_ext rows cols (ws : list Z) (ss1 ss2 : gmap string value)
    (today : Z) :
  (forall w col, w < length rows -> In col cols ->
     completed ss1 (completion_key w col)
     = completed ss2 (completion_key w col)) ->
  aggregate rows cols ws ss1 today = aggregate rows cols ws ss2 today.
Proof.
  intros H. unfold aggregate. apply for_each_ext.
  intros acc [w r] Hin.
  assert (Hw : w < length rows).
  { pose proof (iterrows_in_range rows) as Hr.
    rewrite List.Forall_forall in Hr. exact (Hr _ Hin). }
  rewrite !count_row_unfold.
  destruct (ws !! w) as [week_start |]; [| reflexivity].
  apply for_each_ext. intros acc' col Hcol.
  unfold count_cell. now rewrite (H w col Hw Hcol).
Qed.

Lemma completed_agree (ss1 ss2 : gmap string value) (k : string) :
  ss1 !! k = ss2 !! k -> completed ss1 k = completed ss2 k.
Proof. unfold completed. now intros ->. Qed.

Lemma planned_key_not_completion (w w' : nat) (col col' : string) :
  planned_key w col <> completion_key w' col'.
Proof.
  unfold planned_key, completion_key. rewrite !append_cons. discriminate.
Qed.

Lemma select_key_not_completion (w w' : nat) (col col' : string) :
  select_key w col <> completion_key w' col'.
Proof.
  unfold select_key, planned_key, completion_key.
  rewrite !append_cons. discriminate.
Qed.

(** X9.  Planning a day leaves the overview and the colours alone.  Neither the
    default written under the key of a selectbox (line 288) nor the update of
    the planned day (lines 297-301), whatever label comes back, changes
    what the aggregation returns or how a cell is drawn. *)
Theorem planning_keeps_overview (isoformat : Z -> string) rows cols
    (ws : list Z) session_state (today : Z) (w : nat) (col : string)
    (dates : list Z) (options : list string) (label : string) (v : value) :
  (aggregate rows cols ws (<[select_key w col := v]> session_state) today
   = aggregate rows cols ws session_state today) /\
  (forall w' week_end col',
     status_class (<[select_key w col := v]> session_state) today w'
       week_end col'
     = status_class session_state today w' week_end col') /\
  (forall ss',
     apply_selection isoformat (planned_key w col) dates options label
       session_state = Ok ss' ->
     aggregate rows cols ws ss' today
     = aggregate rows cols ws session_state today /\
     forall w' week_end col',
       status_class ss' today w' week_end col'
       = status_class session_state today w' week_end col').
Proof.
  assert (Hsel : forall w' col',
            completed (<[select_key w col := v]> session_state)
              (completion_key w' col')
            = completed session_state (completion_key w' col')).
  { intros w' col'. apply completed_agree, lookup_insert_ne.
    apply select_key_not_completion. }
  split; [apply aggregate_ext; intros; apply Hsel |].
  split; [intros; unfold status_class; now rewrite Hsel |].
  intros ss' Happ.
  assert (Hpl : forall w' col',
            completed ss' (completion_key w' col')
            = completed session_state (completion_key w' col')).
  { intros w' col'. apply completed_agree.
    unfold apply_selection in Happ.
    destruct (String.eqb label "Unplanned").
    - injection Happ as <-. apply lookup_delete_ne.
      apply planned_key_not_completion.
    - destruct (index label options) as [i |]; [| discriminate].
      destruct (match i with 0 => last dates | S j => dates !! j end);
        [| discriminate].
      injection Happ as <-. apply lookup_insert_ne.
      apply planned_key_not_completion. }
  split; [apply aggregate_ext; intros; apply Hpl |].
  intros. unfold status_class. now rewrite Hpl.
Qed.

End Table.

Lemma table_agrees_with_overview_witness :
  week_starts [8; 15]%Z = Some [8; 15]%Z /\ NoDup ["Session 1"] /\
  exists st,
    aggregate [{["Session 1" := "Run 5km"]}; {["Session 1" := "Gym"]}]
      ["Session 1"] [8; 15]%Z
      {["completed_0_session_1" := VBool true]} 16%Z = Ok st /\
    completed_count st
    = length (List.filter
                (fun c => String.eqb
                            (status_class
                               {["completed_0_session_1" := VBool true]}
                               16%Z (cell_week c) (cell_week_end c)
                               (cell_col c)) "completed")
                (plan_cells
                   [{["Session 1" := "Run 5km"]}; {["Session 1" := "Gym"]}]
                   ["Session 1"] [8; 15]%Z)).
Proof.
  assert (Hnd : NoDup ["Session 1"]) by apply NoDup_singleton.
  split; [reflexivity |]. split; [exact Hnd |].
  destruct (table_agrees_with_overview
              [{["Session 1" := "Run 5km"]}; {["Session 1" := "Gym"]}]
              ["Session 1"] [8; 15]%Z [8; 15]%Z
              {["completed_0_session_1" := VBool true]} 16%Z
              eq_refl eq_refl Hnd) as (st & E & H & _).
  exists st. split; [exact E | exact H].
Defined.

Section Restart.
Implicit Types (rows : list (gmap string string)) (cols : list string)
  (session_state : gmap string value).

Lemma persist_value_idem (k : string) (v : value) :
  persist_value k (persist_value k v) = persist_value k v.
Proof. unfold persist_value. now destruct (Str.startswith _ _). Qed.

Lemma restart_state (saved_at : string) (n : nat) cols session_state
    (f : file) (v : value) :
  session_state !! "state_loaded" = Some v -> truthy v = true ->
  restore (save_on_exit saved_at true n cols session_state f).1 ∅
  = Ok (<["state_loaded" := VBool true]>
          (persisted_state n cols session_state)).
Proof.
  intros Hl Hv. unfold save_on_exit. rewrite Hl, Hv.
  unfold save_state, restore. cbn [fst].
  rewrite lookup_empty, load_payload. cbn.
  now rewrite restore_items_union, (left_id_L ∅ (∪)).
Qed.

Lemma restarted_lookup (n : nat) cols session_state (k : string) :
  grid_key n cols k ->
  <["state_loaded" := VBool true]> (persisted_state n cols session_state)
    !! k
  = persist_value k <$> session_state !! k.
Proof.
  intros HG. rewrite lookup_insert_ne.
  - now apply (covers_grid session_state cols n k).
  - intros <-. now apply state_loaded_not_grid_key in HG.
Qed.

(** X10.  A restart.  When a run has saved and a new session starts from the
    file, the session state restored carries the [state_loaded] mark, reads
    every completion flag of the grid as the old state did, gives the same
    overview for the same plan and holds the same planned day for every
    cell. *)
Theorem restart_keeps_state (saved_at : string) rows cols (ws : list Z)
    session_state (f : file) (today : Z) (v : value) :
  session_state !! "state_loaded" = Some v -> truthy v = true ->
  exists ss',
    restore (save_on_exit saved_at true (length rows) cols session_state f).1
      ∅ = Ok ss' /\
    ss' !! "state_loaded" = Some (VBool true) /\
    (forall w col, w < length rows -> col ∈ cols ->
       completed ss' (completion_key w col)
       = completed session_state (completion_key w col)) /\
    aggregate rows cols ws ss' today
    = aggregate rows cols ws session_state today /\
    (forall w col, w < length rows -> col ∈ cols ->
       ss' !! planned_key w col = session_state !! planned_key w col).
Proof.
  intros Hl Hv. eexists. split; [eapply restart_state; eauto |].
  assert (Hc : forall w col, w < length rows -> col ∈ cols ->
            completed
              (<["state_loaded" := VBool true]>
                 (persisted_state (length rows) cols session_state))
              (completion_key w col)
            = completed session_state (completion_key w col)).
  { intros w col Hw Hc. unfold completed.
    rewrite restarted_lookup by (exists w, col; auto).
    unfold persist_value. rewrite completion_key_prefix.
    now destruct (session_state !! completion_key w col). }
  split; [apply lookup_insert_eq |]. split; [exact Hc |]. split.
  - apply aggregate_ext. intros w col Hw Hin. apply Hc; [exact Hw |].
    now apply list_elem_of_In.
  - intros w col Hw Hin.
    rewrite restarted_lookup by (exists w, col; auto).
    unfold persist_value. rewrite planned_key_not_completed.
    now destruct (session_state !! planned_key w col).
Qed.

(** X11.  The saved state is loaded once.  A session that carries the
    [state_loaded] mark is left as it is, whatever the file holds, be it
    unreadable or malformed.  Otherwise, when the restore goes through, what
    the session already holds is kept, the other keys come from the file, the
    mark is set, and a second restore changes nothing. *)
Theorem restore_once (f : file) session_state :
  (is_Some (session_state !! "state_loaded") ->
   forall f', restore f' session_state = Ok session_state) /\
  (session_state !! "state_loaded" = None ->
   forall ss', restore f session_state = Ok ss' ->
     exists d,
       load_state f = Ok (VDict d) /\
       ss' !! "state_loaded" = Some (VBool true) /\
       (forall k v, session_state !! k = Some v -> ss' !! k = Some v) /\
       (forall k, k <> "state_loaded" -> session_state !! k = None ->
          ss' !! k = d !! k) /\
       forall f', restore f' ss' = Ok ss').
Proof.
  split.
  - intros [v Hv] f'. unfold restore. now rewrite Hv.
  - intros Hnone ss'. unfold restore. rewrite Hnone.
    destruct (load_state f) as [[| | | | | | d] | e]; try discriminate.
    cbn. intros [= <-]. exists d. split; [reflexivity |].
    rewrite restore_items_union.
    split; [apply lookup_insert_eq |]. split; [| split].
    + intros k v Hk. rewrite lookup_insert_ne by congruence.
      now rewrite lookup_union, Hk, union_Some_l.
    + intros k Hk Hn. rewrite lookup_insert_ne by congruence.
      rewrite lookup_union, Hn. now destruct (d !! k).
    + intros f'. now rewrite lookup_insert_eq.
Qed.

End Restart.

(** A session that has ticked "Run 5km" of the first week and planned it for
    the Wednesday of ordinal 10: after the save and a restart the flag and
    the planned day are back. *)
Lemma restart_keeps_state_witness :
  ({["state_loaded" := VBool true;
     "completed_0_session_1" := VBool true;
     "planned_0_session_1" := VStr "0001-01-10";
     "select_planned_0_session_1" := VStr "Wed 0001-01-10"]}
     : gmap string value) !! "state_loaded" = Some (VBool true) /\
  truthy (VBool true) = true /\
  exists ss',
    restore
      (save_on_exit "0001-01-09" true 1 ["Session 1"]
         {["state_loaded" := VBool true;
           "completed_0_session_1" := VBool true;
           "planned_0_session_1" := VStr "0001-01-10";
           "select_planned_0_session_1" := VStr "Wed 0001-01-10"]}
         Absent).1 ∅
    = Ok ss' /\
    completed ss' (completion_key 0 "Session 1") = true /\
    ss' !! planned_key 0 "Session 1" = Some (VStr "0001-01-10") /\
    aggregate [{["Session 1" := "Run 5km"]}] ["Session 1"] [8%Z] ss' 9%Z
    = aggregate [{["Session 1" := "Run 5km"]}] ["Session 1"] [8%Z]
        {["state_loaded" := VBool true;
          "completed_0_session_1" := VBool true;
          "planned_0_session_1" := VStr "0001-01-10";
          "select_planned_0_session_1" := VStr "Wed 0001-01-10"]} 9%Z.
Proof.
  assert (H1 : ({["state_loaded" := VBool true;
                  "completed_0_session_1" := VBool true;
                  "planned_0_session_1" := VStr "0001-01-10";
                  "select_planned_0_session_1" := VStr "Wed 0001-01-10"]}
                  : gmap string value) !! "state_loaded"
               = Some (VBool true))
    by reflexivity.
  split; [exact H1 |]. split; [reflexivity |].
  destruct (restart_keeps_state "0001-01-09" [{["Session 1" := "Run 5km"]}]
              ["Session 1"] [8%Z]
              {["state_loaded" := VBool true;
                "completed_0_session_1" := VBool true;
                "planned_0_session_1" := VStr "0001-01-10";
                "select_planned_0_session_1" := VStr "Wed 0001-01-10"]}
              Absent 9%Z (VBool true) H1 eq_refl)
    as (ss' & H & _ & Hc & Ha & Hp).
  assert (Hin : "Session 1" ∈ ["Session 1"]) by apply list_elem_of_here.
  exists ss'. split; [exact H |].
  split; [rewrite (Hc 0 "Session 1" (le_n 1) Hin); reflexivity |].
  split; [rewrite (Hp 0 "Session 1" (le_n 1) Hin); reflexivity |].
  exact Ha.
Defined.

Lemma restore_once_witness :
  is_Some (({["state_loaded" := VBool true]} : gmap string value)
             !! "state_loaded") /\
  restore (Json (VList [])) {["state_loaded" := VBool true]}
  = Ok {["state_loaded" := VBool true]}.
Proof.
  assert (H : is_Some (({["state_loaded" := VBool true]}
                          : gmap string value) !! "state_loaded"))
    by (eexists; reflexivity).
  split; [exact H |].
  exact (proj1 (restore_once Absent {["state_loaded" := VBool true]}) H
           (Json (VList []))).
Defined.

(* ===================================================================== *)
(** * Start-up and the day selectbox *)
(* ===================================================================== *)

Section Startup.

Lemma parsed_dates_length (column : list (option Z)) (ds : list Z) :
  parsed_dates column = Some ds -> length ds = length column.
Proof.
  revert ds. induction column as [| [d |] column IH]; intros ds; cbn.
  - now intros [= <-].
  - destruct (parsed_dates column) as [ds' |]; [| discriminate].
    intros [= <-]. cbn. now rewrite (IH ds').
  - discriminate.
Qed.

(** X1.  What a run that gets past the start-up checks can rely on: the session
    columns are the stripped header names that start with "session" in any
    case, there is at least one of them and the date column is none of them;
    the table has a row, one week start per row, so the number of sessions
    is positive (the percentages never take their zero branch) and the plan
    has a first and a last day, in this order. *)
Theorem startup_guarantees (csv_exists : bool) (columns : list string)
    (week_commencing : list (option Z)) (cols : list string) (ws : list Z) :
  startup csv_exists columns week_commencing = inr (cols, ws) ->
  csv_exists = true /\
  cols = session_columns (List.map Str.strip columns) /\
  cols <> [] /\
  (forall col, In col cols ->
     In col (List.map Str.strip columns) /\
     Str.startswith "session" (Str.lower col) = true /\
     col <> "Week Commencing") /\
  week_commencing <> [] /\
  length ws = length week_commencing /\
  0 < total_sessions (length week_commencing) cols /\
  (forall count,
     completed_pct count (total_sessions (length week_commencing) cols)
     = (inject_Z (Z.of_nat count)
        / inject_Z (Z.of_nat (total_sessions (length week_commencing) cols))
        * 100)%Q) /\
  exists s e, plan_start ws = Some s /\ plan_end ws = Some e /\ (s < e)%Z.
Proof.
  unfold startup.
  destruct csv_exists; [| discriminate]. cbn [negb].
  destruct (existsb _ _); [| discriminate]. cbn [negb].
  destruct (session_columns (List.map Str.strip columns))
    as [| col0 cols0] eqn:Hcols; [discriminate |].
  destruct week_commencing as [| d0 wc]; [discriminate |].
  destruct (parsed_dates (d0 :: wc)) as [raw |] eqn:Hraw; [| discriminate].
  destruct (week_starts raw) as [ws' |] eqn:Hws; [| discriminate].
  intros [= <- <-].
  pose proof (parsed_dates_length _ _ Hraw) as Hlr.
  pose proof (week_starts_length _ _ Hws) as Hlw.
  assert (Htot : 0 < total_sessions (length (d0 :: wc)) (col0 :: cols0))
    by (unfold total_sessions; cbn; lia).
  split; [reflexivity |]. split; [reflexivity |]. split; [discriminate |].
  split;
    [| split; [discriminate | split; [congruence | split; [exact Htot |]]]].
  - intros col Hin. rewrite <- Hcols in Hin.
    unfold session_columns in Hin. apply List.filter_In in Hin as [Hin Hs].
    repeat split; auto. intros ->. discriminate.
  - split.
    + intros count. unfold completed_pct.
      destruct (Nat.eqb_spec (total_sessions (length (d0 :: wc))
                                (col0 :: cols0)) 0); [lia | reflexivity].
    + destruct ws' as [| w0 ws0] eqn:Hw; [cbn [length] in *; lia |].
      destruct (last (w0 :: ws0)) as [l |] eqn:Hl.
      * exists w0, (l + 6)%Z.
        assert (He : plan_end (w0 :: ws0) = Some (l + 6)%Z)
          by (unfold plan_end; now rewrite Hl).
        split; [reflexivity |]. split; [exact He |].
        eapply plan_bounds_ordered; eauto.
      * rewrite last_lookup in Hl. apply lookup_ge_None in Hl. cbn in Hl. lia.
Qed.

End Startup.

Lemma startup_guarantees_witness :
  startup true ["Week"; "Week Commencing "; " Session 1"; "session 2"; "Notes"]
    [Some 3%Z; Some 99%Z] = inr ([ "Session 1"; "session 2"], [8; 15]%Z) /\
  0 < total_sessions (length [Some 3%Z; Some 99%Z]) ["Session 1"; "session 2"].
Proof.
  assert (H : startup true
                ["Week"; "Week Commencing "; " Session 1"; "session 2";
                 "Notes"] [Some 3%Z; Some 99%Z]
              = inr (["Session 1"; "session 2"], [8; 15]%Z))
    by reflexivity.
  split; [exact H |].
  exact (proj1 (proj2 (proj2 (proj2 (proj2 (proj2 (proj2
           (startup_guarantees _ _ _ _ _ H)))))))).
Defined.

Section Selectbox.
Variable isoformat : Z -> string.
Variable fromisoformat : string -> option Z.

Lemma weekday_shift (d k : Z) : weekday (d + k) = ((weekday d + k) mod 7)%Z.
Proof.
  unfold weekday.
  replace (d + k + 6)%Z with (d + 6 + k)%Z by lia.
  now rewrite Zplus_mod_idemp_l.
Qed.

(** The label of the day number [i] of a week that starts on a Monday. *)
Lemma date_label_shift (week_start : Z) (i : nat) (name : string) :
  weekday week_start = 0%Z -> DAY_NAMES !! i = Some name ->
  date_label isoformat (week_start + Z.of_nat i)
  = Ok (name +:+ " " +:+ isoformat (week_start + Z.of_nat i)).
Proof.
  intros Hm Hi. unfold date_label.
  assert (i < 7) by (apply lookup_lt_Some in Hi; exact Hi).
  rewrite weekday_shift, Hm, Z.add_0_l, Z.mod_small, Nat2Z.id by lia.
  now rewrite Hi.
Qed.

(** The options of a week that starts on a Monday, as every week of the
    script does. *)
Lemma date_options_monday (week_start : Z) :
  weekday week_start = 0%Z ->
  date_options isoformat week_start
  = Ok ["Unplanned";
        "Mon " +:+ isoformat week_start;
        "Tue " +:+ isoformat (week_start + 1);
        "Wed " +:+ isoformat (week_start + 2);
        "Thu " +:+ isoformat (week_start + 3);
        "Fri " +:+ isoformat (week_start + 4);
        "Sat " +:+ isoformat (week_start + 5);
        "Sun " +:+ isoformat (week_start + 6)]%Z.
Proof.
  intros Hm. unfold date_options, week_dates.
  cbn [seq fmap list_fmap for_list].
  rewrite (date_label_shift week_start 0 "Mon" Hm eq_refl),
    (date_label_shift week_start 1 "Tue" Hm eq_refl),
    (date_label_shift week_start 2 "Wed" Hm eq_refl),
    (date_label_shift week_start 3 "Thu" Hm eq_refl),
    (date_label_shift week_start 4 "Fri" Hm eq_refl),
    (date_label_shift week_start 5 "Sat" Hm eq_refl),
    (date_label_shift week_start 6 "Sun" Hm eq_refl).
  cbn. now rewrite Z.add_0_r.
Qed.

Lemma index_lookup {A} `{EqDecision A} (l : list A) (j : nat) (x : A) :
  NoDup l -> l !! j = Some x -> index x l = Some j.
Proof.
  intros Hnd. revert j. induction Hnd as [| y l Hy _ IH]; intros j Hj.
  - discriminate.
  - cbn. destruct j as [| j]; cbn in Hj.
    + injection Hj as ->. now rewrite decide_True.
    + rewrite decide_False.
      * now rewrite (IH j Hj).
      * intros ->. apply Hy. eapply list_elem_of_lookup_2; eauto.
Qed.

Lemma index_none {A} `{EqDecision A} (l : list A) (x : A) :
  x ∉ l -> index x l = None.
Proof.
  induction l as [| y l IH]; [reflexivity |]. intros Hx. cbn.
  rewrite decide_False by (intros ->; apply Hx; left).
  rewrite IH; [reflexivity |]. intros H'. apply Hx. now right.
Qed.

Lemma week_dates_lookup (week_start : Z) (i : nat) :
  i < 7 -> week_dates week_start !! i = Some (week_start + Z.of_nat i)%Z.
Proof.
  intros Hi. unfold week_dates.
  now rewrite list_lookup_fmap, lookup_seq_lt by exact Hi.
Qed.

(** The labels of a week differ in their first three letters. *)
Lemma date_options_nodup (week_start : Z) (options : list string) :
  weekday week_start = 0%Z ->
  date_options isoformat week_start = Ok options -> NoDup options.
Proof.
  intros Hm. rewrite date_options_monday by exact Hm. intros [= <-].
  apply (NoDup_fmap_1 (Str.take 3)).
  cbn [fmap list_fmap]. rewrite !append_cons. cbn [Str.take].
  apply (bool_decide_unpack _). vm_compute. exact I.
Qed.

(** X12.  From the label picked to the planned day.  In a week that starts on a
    Monday there are eight options; picking "Unplanned" removes the planned
    day, picking the label of the day number [i] of the week stores the ISO
    date of that very day, a label that is no option raises [ValueError], and
    no other key of the session state is touched. *)
Theorem selection_stores_chosen_day (week_start : Z) (p_key : string)
    (session_state : gmap string value) :
  weekday week_start = 0%Z ->
  exists options,
    date_options isoformat week_start = Ok options /\
    length options = 8 /\
    apply_selection isoformat p_key (week_dates week_start) options
      "Unplanned" session_state = Ok (delete p_key session_state) /\
    (forall i label, i < 7 -> options !! S i = Some label ->
       apply_selection isoformat p_key (week_dates week_start) options
         label session_state
       = Ok (<[p_key := VStr (isoformat (week_start + Z.of_nat i))]>
               session_state)) /\
    (forall label, label ∉ options ->
       apply_selection isoformat p_key (week_dates week_start) options
         label session_state = Raise ValueError) /\
    (forall label ss' k,
       apply_selection isoformat p_key (week_dates week_start) options
         label session_state = Ok ss' ->
       k <> p_key -> ss' !! k = session_state !! k).
Proof.
  intros Hm.
  destruct (date_options isoformat week_start) as [options | e] eqn:Hopt;
    [| rewrite date_options_monday in Hopt by exact Hm; discriminate].
  pose proof (date_options_nodup _ _ Hm Hopt) as Hnd.
  assert (H0 : options !! 0 = Some "Unplanned").
  { rewrite date_options_monday in Hopt by exact Hm. now injection Hopt as <-. }
  exists options. split; [reflexivity |].
  split; [rewrite date_options_monday in Hopt by exact Hm;
          now injection Hopt as <- |].
  split; [reflexivity |]. split; [| split].
  - intros i label Hi Hl. unfold apply_selection.
    destruct (String.eqb_spec label "Unplanned") as [-> | _].
    + pose proof (index_lookup _ _ _ Hnd H0) as E0.
      pose proof (index_lookup _ _ _ Hnd Hl) as E1. congruence.
    + rewrite (index_lookup _ _ _ Hnd Hl).
      now rewrite week_dates_lookup by exact Hi.
  - intros label Hl. unfold apply_selection.
    destruct (String.eqb_spec label "Unplanned") as [-> | _].
    + exfalso. apply Hl. eapply list_elem_of_lookup_2; eauto.
    + now rewrite index_none.
  - intros label ss' k Happ Hk. unfold apply_selection in Happ.
    destruct (String.eqb label "Unplanned").
    + injection Happ as <-. now rewrite lookup_delete_ne.
    + destruct (index label options) as [i |]; [| discriminate].
      destruct (match i with 0 => last _ | S j => _ !! j end);
        [| discriminate].
      injection Happ as <-. now rewrite lookup_insert_ne.
Qed.

Lemma index_week_dates (week_start d : Z) :
  index d (week_dates week_start)
  = if ((week_start <=? d) && (d <=? week_start + 6))%Z
    then Some (Z.to_nat (d - week_start)) else None.
Proof.
  unfold week_dates. cbn [seq fmap list_fmap index Z.of_nat Pos.of_succ_nat
                            Pos.succ].
  repeat match goal with
         | |- context [decide (d = ?x)] =>
             destruct (decide (d = x)) as [-> | ?]
         end;
    cbn [fmap option_fmap option_map];
    repeat match goal with
           | |- context [(?a <=? ?b)%Z] => destruct (Z.leb_spec a b)
           end; cbn [andb]; try lia; try reflexivity; f_equal; lia.
Qed.

(** X13.  The option shown for a stored planned day.  The index is one of the
    eight options whenever it is computed; a stored string that parses to
    the day number [i] of the week selects option [i + 1], and in particular
    the value written by a selection selects the label it came from as soon
    as [fromisoformat] reads back what [isoformat] wrote; a missing or empty
    value, a string that does not parse and a date of another week select
    "Unplanned"; a stored value that is true and not a string is passed to
    [fromisoformat], whose [TypeError] is not caught. *)
Theorem default_index_spec (week_start : Z) (existing_iso : option value) :
  (forall i,
     default_index fromisoformat (week_dates week_start) existing_iso
     = Some i -> i <= 7) /\
  (forall s d,
     existing_iso = Some (VStr s) -> s <> "" -> fromisoformat s = Some d ->
     default_index fromisoformat (week_dates week_start) existing_iso
     = Some (if ((week_start <=? d) && (d <=? week_start + 6))%Z
             then Z.to_nat (d - week_start) + 1 else 0)) /\
  (forall i,
     i < 7 ->
     existing_iso = Some (VStr (isoformat (week_start + Z.of_nat i))) ->
     isoformat (week_start + Z.of_nat i) <> "" ->
     fromisoformat (isoformat (week_start + Z.of_nat i))
     = Some (week_start + Z.of_nat i)%Z ->
     default_index fromisoformat (week_dates week_start) existing_iso
     = Some (S i)) /\
  (forall s,
     existing_iso = Some (VStr s) -> fromisoformat s = None ->
     default_index fromisoformat (week_dates week_start) existing_iso
     = Some 0) /\
  (forall v,
     existing_iso = None \/ (existing_iso = Some v /\ truthy v = false) ->
     default_index fromisoformat (week_dates week_start) existing_iso
     = Some 0) /\
  (forall v,
     existing_iso = Some v -> truthy v = true ->
     (forall s, v <> VStr s) ->
     default_index fromisoformat (week_dates week_start) existing_iso
     = None).
Proof.
  assert (Hstr : forall s d, s <> "" -> fromisoformat s = Some d ->
            default_index fromisoformat (week_dates week_start)
              (Some (VStr s))
            = Some (if ((week_start <=? d) && (d <=? week_start + 6))%Z
                    then Z.to_nat (d - week_start) + 1 else 0)).
  { intros s d Hs Hd. unfold default_index. cbn [truthy].
    destruct (String.eqb_spec s ""); [contradiction |]. cbn [negb].
    rewrite Hd, index_week_dates. now destruct (_ && _). }
  split; [| split; [| split; [| split; [| split]]]].
  - intros i. unfold default_index.
    destruct existing_iso as [v |]; [| intros [= <-]; lia].
    destruct (truthy v); [| intros [= <-]; lia].
    destruct v; try discriminate.
    destruct (fromisoformat s) as [d |]; [| intros [= <-]; lia].
    rewrite index_week_dates.
    destruct (Z.leb_spec week_start d), (Z.leb_spec d (week_start + 6));
      cbn [andb]; intros [= <-]; lia.
  - intros s d ->. apply Hstr.
  - intros i Hi -> Hne Hrt. rewrite (Hstr _ _ Hne Hrt).
    destruct (Z.leb_spec week_start (week_start + Z.of_nat i)),
      (Z.leb_spec (week_start + Z.of_nat i) (week_start + 6));
      cbn [andb]; try lia. f_equal. lia.
  - intros s -> Hnone. unfold default_index. rewrite Hnone.
    now destruct (truthy (VStr s)).
  - intros v [-> | [-> Hv]]; [reflexivity |].
    unfold default_index. now rewrite Hv.
  - intros v -> Hv Hns. unfold default_index. rewrite Hv.
    destruct v; try reflexivity. now destruct (Hns s).
Qed.

End Selectbox.

(** The week of ordinal 8, with dates written as their ordinal. *)
Lemma selection_stores_chosen_day_witness :
  weekday 8 = 0%Z /\
  apply_selection (fun d => Str.of_nat (Z.to_nat d)) "planned_0_session_1"
    (week_dates 8) ["Unplanned"; "Mon 8"; "Tue 9"; "Wed 10"; "Thu 11";
                    "Fri 12"; "Sat 13"; "Sun 14"] "Unplanned"
    {["planned_0_session_1" := VStr "9"]}
  = Ok (delete "planned_0_session_1" {["planned_0_session_1" := VStr "9"]}).
Proof.
  split; [reflexivity |].
  destruct (selection_stores_chosen_day (fun d => Str.of_nat (Z.to_nat d))
              8%Z "planned_0_session_1"
              {["planned_0_session_1" := VStr "9"]} eq_refl)
    as (options & Hopt & _ & Hun & _).
  vm_compute in Hopt. injection Hopt as <-. exact Hun.
Defined.

(** A planned day restored as the JSON value [true]. *)
Lemma default_index_spec_witness :
  Some (VBool true) = Some (VBool true) /\ truthy (VBool true) = true /\
  (forall s, VBool true <> VStr s) /\
  default_index (fun _ => None) (week_dates 8) (Some (VBool true)) = None.
Proof.
  assert (H : forall s, VBool true <> VStr s) by discriminate.
  split; [reflexivity |]. split; [reflexivity |]. split; [exact H |].
  exact (proj2 (proj2 (proj2 (proj2 (proj2
           (default_index_spec (fun d => Str.of_nat (Z.to_nat d))
              (fun _ => None) 8%Z (Some (VBool true)))))))
           (VBool true) eq_refl eq_refl H).
Defined.

(* ===================================================================== *)
(** * Further properties of the keys and of the parser *)
(* ===================================================================== *)

Section Slug.

Lemma map_map (f g : ascii -> ascii) (s : string) :
  Str.map f (Str.map g s) = Str.map (fun c => f (g c)) s.
Proof. induction s as [| c s IH]; [reflexivity |]. cbn. now rewrite IH. Qed.

Lemma map_ext (f g : ascii -> ascii) (s : string) :
  (forall c, f c = g c) -> Str.map f s = Str.map g s.
Proof.
  intros H. induction s as [| c s IH]; [reflexivity |]. cbn.
  now rewrite H, IH.
Qed.

(** What [slug] does to one character. *)
Definition slug_char (c : ascii) : ascii :=
  if Ascii.eqb (Str.lower_char c) " " then "_"%char else Str.lower_char c.

Lemma slug_map (s : string) : slug s = Str.map slug_char s.
Proof. unfold slug, Str.replace, Str.lower. now rewrite map_map. Qed.

Lemma slug_char_idem (c : ascii) : slug_char (slug_char c) = slug_char c.
Proof. destruct c as [[] [] [] [] [] [] [] []]; reflexivity. Qed.

Lemma slug_char_not_space (c : ascii) : Ascii.eqb " " (slug_char c) = false.
Proof. destruct c as [[] [] [] [] [] [] [] []]; reflexivity. Qed.

Lemma slug_char_lower (c : ascii) :
  Str.lower_char (slug_char c) = slug_char c.
Proof. destruct c as [[] [] [] [] [] [] [] []]; reflexivity. Qed.

(** X14.  The normalised column name is a normal form: normalising it again
    changes nothing, so a key computed from a slug is the key of the column;
    it holds no space and is in lower case. *)
Theorem slug_normal_form (session_col : string) :
  slug (slug session_col) = slug session_col /\
  Str.contains " " (slug session_col) = false /\
  Str.lower (slug session_col) = slug session_col /\
  (forall p w, key p w (slug session_col) = key p w session_col).
Proof.
  assert (Hidem : slug (slug session_col) = slug session_col).
  { rewrite !slug_map, map_map. apply map_ext, slug_char_idem. }
  split; [exact Hidem |].
  split; [| split].
  - rewrite slug_map. clear Hidem.
    induction session_col as [| c s IH]; [reflexivity |].
    cbn [Str.map Str.contains Str.startswith].
    now rewrite slug_char_not_space, IH.
  - rewrite slug_map. unfold Str.lower. rewrite map_map.
    apply map_ext, slug_char_lower.
  - intros p w. rewrite !key_format. now rewrite Hidem.
Qed.

End Slug.

Section Substrings.

Lemma startswith_app (p s b : string) :
  Str.startswith p s = true -> Str.startswith p (s +:+ b) = true.
Proof.
  revert s. induction p as [| a p IH]; intros [| c s]; cbn; auto.
  - discriminate.
  - rewrite append_cons. cbn. intros [-> H]%andb_prop. now rewrite IH.
Qed.

Lemma contains_app_r (p s b : string) :
  Str.contains p s = true -> Str.contains p (s +:+ b) = true.
Proof.
  induction s as [| c s IH].
  - cbn. rewrite orb_false_r. intros H.
    destruct p; [now destruct b | discriminate].
  - intros H. rewrite append_cons. cbn [Str.contains] in *.
    apply orb_prop in H as [H | H].
    + pose proof (startswith_app _ _ b H) as H'.
      rewrite append_cons in H'. now rewrite H'.
    + rewrite (IH H). apply orb_true_r.
Qed.

Lemma contains_app_l (p a s : string) :
  Str.contains p s = true -> Str.contains p (a +:+ s) = true.
Proof.
  intros H. induction a as [| c a IH]; [exact H |].
  rewrite append_cons. cbn [Str.contains]. rewrite IH. apply orb_true_r.
Qed.

Lemma contains_middle (p a s b : string) :
  Str.contains p s = true -> Str.contains p (a +:+ s +:+ b) = true.
Proof. intros H. now apply contains_app_l, contains_app_r. Qed.

Lemma lstrip_suffix (s : string) : exists a, s = a +:+ Str.lstrip s.
Proof.
  induction s as [| c s [a IH]]; [now exists "" |]. cbn.
  destruct (Str.is_space c).
  - exists (String c a). rewrite append_cons. now rewrite <- IH.
  - now exists "".
Qed.

Lemma rstrip_prefix (s : string) : exists b, s = Str.rstrip s +:+ b.
Proof.
  induction s as [| c s [b IH]]; [now exists "" |]. cbn.
  destruct (Str.rstrip s) as [| c' r] eqn:E.
  - destruct (Str.is_space c).
    + exists (String c s). reflexivity.
    + exists s. reflexivity.
  - exists b. rewrite append_cons. now rewrite <- IH.
Qed.

Lemma strip_substring (s : string) :
  exists a b, s = a +:+ Str.strip s +:+ b.
Proof.
  unfold Str.strip.
  destruct (lstrip_suffix s) as [a Ha].
  destruct (rstrip_prefix (Str.lstrip s)) as [b Hb].
  exists a, b. now rewrite <- Hb.
Qed.

Lemma split_head (sep : ascii) (t : string) :
  exists p ps r, Str.split sep t = p :: ps /\ t = p +:+ r.
Proof.
  induction t as [| y t (p & ps & r & E & Ht)]; cbn.
  - now exists "", [], "".
  - destruct (Ascii.eqb y sep).
    + now exists "", (Str.split sep t), (String y t).
    + rewrite E. exists (String y p), ps, r. split; [reflexivity |].
      rewrite append_cons. now rewrite <- Ht.
Qed.

Lemma split_substring (sep : ascii) (s seg : string) :
  In seg (Str.split sep s) -> exists a b, s = a +:+ seg +:+ b.
Proof.
  revert seg. induction s as [| c s IH]; intros seg; cbn.
  - intros [<- | []]. now exists "", "".
  - destruct (Ascii.eqb c sep).
    + intros [<- | Hin].
      * exists "", (String c s). reflexivity.
      * destruct (IH seg Hin) as (a & b & ->).
        exists (String c a), b. reflexivity.
    + destruct (split_head sep s) as (p & ps & r & E & Hs).
      rewrite E in *. intros [<- | Hin].
      * exists "", r. rewrite append_nil, append_cons. now rewrite <- Hs.
      * destruct (IH seg (or_intror Hin)) as (a & b & ->).
        exists (String c a), b. reflexivity.
Qed.

End Substrings.

Section ParserFacts.

Lemma segment_in_text (session_text seg : string) :
  In seg (segments session_text) ->
  exists a b, Str.lower session_text = a +:+ seg +:+ b.
Proof.
  unfold segments. intros [Hin _]%List.filter_In.
  apply in_map_iff in Hin as (raw & <- & Hin).
  apply split_substring in Hin as (a & b & ->).
  destruct (strip_substring raw) as (a' & b' & Hraw).
  exists (a +:+ a'), (b' +:+ b).
  rewrite Hraw at 1. now rewrite !append_assoc.
Qed.

Lemma keyword_in_text (kw session_text seg : string) :
  In seg (segments session_text) ->
  Str.contains kw seg = true ->
  Str.contains kw (Str.lower session_text) = true.
Proof.
  intros (a & b & ->)%segment_in_text H. now apply contains_middle.
Qed.

(** The sums of the three disciplines over the segments. *)
Lemma session_distances_sums (session_text : string) :
  exists d,
    session_distances session_text = Ok d /\
    swim d = sum (List.map (fun _ => SWIM_DISTANCE_KM)
                    (List.filter has_swim (segments session_text))) /\
    bike d = sum (List.map km_of
                    (List.filter has_bike (segments session_text))) /\
    run d = sum (List.map km_of
                   (List.filter has_run (segments session_text))).
Proof.
  unfold session_distances, segments, sum.
  destruct (for_each_segments (Str.split "+" (Str.lower session_text))
              {| swim := 0; bike := 0; run := 0 |})
    as (d & Hd & Hs & Hb & Hr).
  exists d. auto.
Qed.

(** X15.  A text that names no discipline gives no distance: without "swim" in
    it, in any case, the swim distance is 0; without "bike" and "cycle" the
    bike distance is 0; without "run" the run distance is 0. *)
Theorem no_keyword_no_distance (session_text : string) :
  exists d,
    session_distances session_text = Ok d /\
    (Str.contains "swim" (Str.lower session_text) = false ->
     swim d = 0%Q) /\
    (Str.contains "bike" (Str.lower session_text) = false ->
     Str.contains "cycle" (Str.lower session_text) = false ->
     bike d = 0%Q) /\
    (Str.contains "run" (Str.lower session_text) = false -> run d = 0%Q).
Proof.
  destruct (session_distances_sums session_text) as (d & Hd & Hs & Hb & Hr).
  exists d. split; [exact Hd |].
  split; [| split].
  - intros Hno. rewrite Hs, filter_none; [reflexivity |].
    intros seg Hin. unfold has_swim.
    destruct (Str.contains "swim" seg) eqn:E; [| reflexivity].
    rewrite (keyword_in_text _ _ _ Hin E) in Hno. discriminate.
  - intros Hno1 Hno2. rewrite Hb, filter_none; [reflexivity |].
    intros seg Hin. unfold has_bike.
    destruct (Str.contains "bike" seg) eqn:E1.
    { rewrite (keyword_in_text _ _ _ Hin E1) in Hno1. discriminate. }
    destruct (Str.contains "cycle" seg) eqn:E2; [| reflexivity].
    rewrite (keyword_in_text _ _ _ Hin E2) in Hno2. discriminate.
  - intros Hno. rewrite Hr, filter_none; [reflexivity |].
    intros seg Hin. unfold has_run.
    destruct (Str.contains "run" seg) eqn:E; [| reflexivity].
    rewrite (keyword_in_text _ _ _ Hin E) in Hno. discriminate.
Qed.

Lemma km_occurs_contains (segment : string) :
  km_occurs segment -> Str.contains "km" segment = true.
Proof.
  intros (pre & s & lo & rest & -> & w & _ & _ & ->).
  do 3 apply contains_app_l. reflexivity.
Qed.

Lemma extract_km_no_distance (segment : string) :
  ~ km_occurs segment -> extract_km segment = Ok 0%Q.
Proof.
  intros Hno.
  destruct (extract_km_scan segment) as (los & Hscan & _ & ->).
  { intros H. now apply Hno, range_occurs_km_occurs. }
  destruct los as [| lo los]; [reflexivity |].
  exfalso. eapply Hno, km_scan_occurs, Hscan.
Qed.

(** X16.  Kilometres only.  A segment in which the letters "km" do not occur has
    no distance, whatever numbers and other units it holds. *)
Theorem other_units_ignored (segment : string) :
  Str.contains "km" segment = false -> extract_km segment = Ok 0%Q.
Proof.
  intros Hno. apply extract_km_no_distance. intros Hocc.
  rewrite (km_occurs_contains _ Hocc) in Hno. discriminate.
Qed.

End ParserFacts.

Lemma no_keyword_no_distance_witness :
  Str.contains "swim" (Str.lower "Rest day") = false /\
  Str.contains "bike" (Str.lower "Rest day") = false /\
  Str.contains "cycle" (Str.lower "Rest day") = false /\
  Str.contains "run" (Str.lower "Rest day") = false /\
  exists d, session_distances "Rest day" = Ok d /\
            swim d = 0%Q /\ bike d = 0%Q /\ run d = 0%Q.
Proof.
  repeat (split; [reflexivity |]).
  destruct (no_keyword_no_distance "Rest day") as (d & Hd & Hs & Hb & Hr).
  exists d. split; [exact Hd |].
  split; [apply Hs; reflexivity |].
  split; [apply Hb; reflexivity | apply Hr; reflexivity].
Defined.

Lemma other_units_ignored_witness :
  Str.contains "km" "run 3 miles" = false /\
  extract_km "run 3 miles" = Ok 0%Q.
Proof.
  split; [reflexivity |]. apply other_units_ignored. reflexivity.
Defined.

Section Amounts.

Lemma digit_value_nonneg (c : ascii) :
  Str.is_digit c = true -> (0 <= digit_value c)%Z.
Proof.
  unfold Str.is_digit, digit_value.
  intros [H _]%andb_prop. apply N.leb_le in H. lia.
Qed.

Lemma digits_value_nonneg (s : string) : forall acc : Z,
  Str.all Str.is_digit s = true -> (0 <= acc)%Z ->
  (0 <= digits_value acc s)%Z.
Proof.
  induction s as [| c s IH]; intros acc Hs Hacc; [exact Hacc |].
  cbn in Hs. apply andb_prop in Hs as [Hc Hs]. cbn.
  apply IH; [exact Hs |]. pose proof (digit_value_nonneg c Hc). lia.
Qed.

Lemma decimal_value_nonneg (s : string) :
  number s -> (0 <= decimal_value s)%Q.
Proof.
  unfold decimal_value.
  intros [i [_ Hi] | i f [_ Hi] [_ Hf]].
  - destruct (digits_no_dot i Hi) as [-> ->].
    change 0%Q with (inject_Z 0). rewrite <- Zle_Qle.
    now apply digits_value_nonneg.
  - destruct (digits_dot i f Hi) as [-> ->].
    assert (H1 : (0 <= inject_Z (digits_value 0 i))%Q).
    { change 0%Q with (inject_Z 0). rewrite <- Zle_Qle.
      now apply digits_value_nonneg. }
    assert (H2 : (0 <= inject_Z (digits_value 0 f)
                       / inject_Z (10 ^ Z.of_nat (String.length f)))%Q).
    { apply Qle_shift_div_l.
      - change 0%Q with (inject_Z 0). rewrite <- Zlt_Qlt.
        apply Z.pow_pos_nonneg; lia.
      - rewrite Qmult_0_l. change 0%Q with (inject_Z 0). rewrite <- Zle_Qle.
        now apply digits_value_nonneg. }
    replace 0%Q with (0 + 0)%Q by reflexivity.
    now apply Qplus_le_compat.
Qed.

Lemma sum_nonneg (l : list Q) : forall acc : Q,
  Forall (fun x => (0 <= x)%Q) l -> (0 <= acc)%Q ->
  (0 <= fold_left Qplus l acc)%Q.
Proof.
  induction l as [| x l IH]; intros acc Hl Hacc; [exact Hacc |].
  apply Forall_cons in Hl as [Hx Hl]. cbn. apply IH; [exact Hl |].
  replace 0%Q with (0 + 0)%Q by reflexivity. now apply Qplus_le_compat.
Qed.

Lemma extract_km_nonneg (segment : string) (km : Q) :
  extract_km segment = Ok km -> (0 <= km)%Q.
Proof.
  unfold extract_km.
  destruct (Re.search range_re segment) as [gs |] eqn:E.
  - apply search_sound in E as (pre & u & v & Hs & Hm & _).
    apply matches_range_re in Hm
      as (lo & w1 & w2 & hi & w3 & Hlo & Hhi & _ & _ & _ & _ & ->).
    change (Re.group 1 [lo; hi]) with lo.
    change (Re.group 2 [lo; hi]) with hi.
    rewrite !float_number by assumption. cbn. intros [= <-].
    apply Qle_shift_div_l; [reflexivity |]. rewrite Qmult_0_l.
    replace 0%Q with (0 + 0)%Q by reflexivity.
    apply Qplus_le_compat; now apply decimal_value_nonneg.
  - destruct (findall_km_scan (String.length segment) segment (le_n _))
      as (los & -> & Hscan).
    pose proof (km_scan_numbers _ _ Hscan) as Hn.
    rewrite for_list_floats by exact Hn. cbn. intros [= <-].
    apply sum_nonneg; [| apply Qle_refl].
    rewrite Forall_fmap. eapply Forall_impl; [exact Hn |].
    intros lo Hlo. now apply decimal_value_nonneg.
Qed.

Lemma km_of_nonneg (segment : string) : (0 <= km_of segment)%Q.
Proof. apply (extract_km_nonneg segment), extract_km_total. Qed.

(** X17.  Distances are never negative: a segment never yields a negative number
    of kilometres, and the three distances of a session text are sums of
    such amounts. *)
Theorem distances_nonnegative (session_text : string) :
  (forall segment km, extract_km segment = Ok km -> (0 <= km)%Q) /\
  exists d,
    session_distances session_text = Ok d /\
    (0 <= swim d)%Q /\ (0 <= bike d)%Q /\ (0 <= run d)%Q.
Proof.
  split; [apply extract_km_nonneg |].
  destruct (session_distances_sums session_text) as (d & Hd & Hs & Hb & Hr).
  exists d. split; [exact Hd |]. rewrite Hs, Hb, Hr. unfold sum.
  repeat split; (apply sum_nonneg; [| apply Qle_refl]);
    apply List.Forall_forall; intros x Hx;
    apply in_map_iff in Hx as (seg & <- & _);
    [discriminate | apply km_of_nonneg | apply km_of_nonneg].
Qed.

Lemma map_append (f : ascii -> ascii) (a b : string) :
  Str.map f (a +:+ b) = Str.map f a +:+ Str.map f b.
Proof.
  induction a as [| c a IH]; [reflexivity |].
  rewrite !append_cons. cbn. now rewrite IH, append_cons.
Qed.

Lemma split_append (sep : ascii) (a b : string) :
  Str.split sep (a +:+ String sep b) = Str.split sep a ++ Str.split sep b.
Proof.
  induction a as [| c a IH].
  - rewrite append_nil. cbn. now rewrite Ascii.eqb_refl.
  - rewrite append_cons. cbn. rewrite IH.
    destruct (Ascii.eqb c sep); [reflexivity |].
    destruct (split_head sep a) as (p & ps & r & -> & _). reflexivity.
Qed.

Lemma segments_plus (a b : string) :
  segments (a +:+ "+" +:+ b) = segments a ++ segments b.
Proof.
  unfold segments, Str.lower.
  rewrite map_append. change (Str.map Str.lower_char ("+" +:+ b))
    with (String "+" (Str.map Str.lower_char b)).
  now rewrite split_append, List.map_app, List.filter_app.
Qed.

Lemma sum_grows (l : list Q) : forall acc : Q,
  Forall (fun x => (0 <= x)%Q) l -> (acc <= fold_left Qplus l acc)%Q.
Proof.
  induction l as [| x l IH]; intros acc Hl; [apply Qle_refl |].
  apply Forall_cons in Hl as [Hx Hl]. cbn.
  apply Qle_trans with (acc + x)%Q; [| now apply IH].
  rewrite <- (Qplus_0_r acc) at 1.
  apply Qplus_le_compat; [apply Qle_refl | exact Hx].
Qed.

Lemma sum_continues (l1 l2 : list Q) :
  sum (l1 ++ l2) = fold_left Qplus l2 (sum l1).
Proof. unfold sum. apply fold_left_app. Qed.

(** X18.  The plus sign carries on.  The segments of two texts joined by "+"
    are the segments of the first followed by those of the second, and the
    loop over the joined text reaches the distances of the first text and
    goes on from there: each total of the joined text is the total of the
    first text with the amounts of the second text added to it one segment
    after the other, so no total of the joined text is below that of the
    first text. *)
Theorem plus_continues_distances (a b : string) :
  segments (a +:+ "+" +:+ b) = segments a ++ segments b /\
  exists da d,
    session_distances a = Ok da /\
    session_distances (a +:+ "+" +:+ b) = Ok d /\
    swim d = fold_left Qplus
               (List.map (fun _ => SWIM_DISTANCE_KM)
                  (List.filter has_swim (segments b))) (swim da) /\
    bike d = fold_left Qplus
               (List.map km_of (List.filter has_bike (segments b)))
               (bike da) /\
    run d = fold_left Qplus
              (List.map km_of (List.filter has_run (segments b)))
              (run da) /\
    (swim da <= swim d)%Q /\ (bike da <= bike d)%Q /\ (run da <= run d)%Q.
Proof.
  split; [apply segments_plus |].
  destruct (session_distances_sums a) as (da & Ha & As & Ab & Ar).
  destruct (session_distances_sums (a +:+ "+" +:+ b))
    as (d & Hd & Ds & Db & Dr).
  exists da, d. split; [exact Ha |]. split; [exact Hd |].
  rewrite segments_plus, !List.filter_app, !List.map_app, !sum_continues
    in Ds, Db, Dr.
  rewrite <- As in Ds. rewrite <- Ab in Db. rewrite <- Ar in Dr.
  split; [exact Ds |]. split; [exact Db |]. split; [exact Dr |].
  rewrite Ds, Db, Dr.
  repeat split; apply sum_grows; apply List.Forall_forall; intros x Hx;
    apply in_map_iff in Hx as (seg & <- & _);
    [discriminate | apply km_of_nonneg | apply km_of_nonneg].
Qed.

End Amounts.

Section Fallbacks.

(** X19.  When the file gives nothing.  A missing file, a file that cannot be
    read, a file that is not JSON and a JSON object whose version is absent
    or differs from 1 all load as the empty state, and a fresh session
    restored from them holds the [state_loaded] mark alone.  Conversely, a
    state that is not the empty one always is the [state] entry of an object
    whose version equals 1. *)
Theorem load_state_fallbacks (f : file) :
  ((f = Absent \/ f = Unreadable \/ f = NotJson \/
    exists d, f = Json (VDict d) /\
              forall v, d !! "version" = Some v ->
                        eq_int v STATE_VERSION = false) ->
   load_state f = Ok (VDict ∅) /\
   restore f ∅ = Ok {["state_loaded" := VBool true]}) /\
  (forall v, load_state f = Ok v -> v <> VDict ∅ ->
     exists d ver,
       f = Json (VDict d) /\ d !! "version" = Some ver /\
       eq_int ver STATE_VERSION = true /\ d !! "state" = Some v).
Proof.
  split.
  - intros H.
    assert (Hload : load_state f = Ok (VDict ∅)).
    { destruct H as [-> | [-> | [-> | (d & -> & Hv)]]]; try reflexivity.
      now apply load_state_version_mismatch. }
    split; [exact Hload |].
    unfold restore. rewrite lookup_empty, Hload. cbn.
    now rewrite map_fold_empty.
  - intros v Hload Hne. destruct f as [| | | | data]; cbn in Hload;
      try (injection Hload as <-; contradiction); try discriminate.
    destruct data as [| | | | | | d]; try discriminate. cbn in Hload.
    destruct (d !! "version") as [ver |] eqn:Hver.
    + destruct (eq_int ver STATE_VERSION) eqn:He; cbn in Hload.
      * exists d, ver. repeat split; auto.
        destruct (d !! "state") as [st |]; [congruence |].
        injection Hload as <-. contradiction.
      * injection Hload as <-. contradiction.
    + cbn in Hload. injection Hload as <-. contradiction.
Qed.

End Fallbacks.

(** A file written by a later version of the schema. *)
Lemma load_state_fallbacks_witness :
  load_state (Json (VDict (<["version" := VInt 999]>
                           (<["state" := VDict {["k" := VBool true]}]> ∅))))
  = Ok (VDict ∅).
Proof.
  apply (load_state_fallbacks
           (Json (VDict (<["version" := VInt 999]>
                         (<["state" := VDict {["k" := VBool true]}]> ∅))))).
  right. right. right. eexists. split; [reflexivity |].
  intros v Hv. rewrite lookup_insert_eq in Hv. now injection Hv as <-.
Defined.

(* ===================================================================== *)
(** * A column name that stands twice in the header *)
(* ===================================================================== *)

Section RepeatedNames.
Implicit Types (rows : list (gmap string string)) (cols : list string)
  (session_state : gmap string value).

(** The inner loop stops with [ValueError] at the first column whose name
    stands more than once in the header. *)
Lemma count_cells_repeated session_state (today : Z) cols (w : nat)
    (week_end : Z) (r : gmap string string) (col : string)
    (l : list string) :
  1 < count_occ String.string_dec cols col -> In col l ->
  forall acc,
    for_each (count_cell session_state today cols w week_end r) l acc
    = Raise ValueError.
Proof.
  intros Hcol. induction l as [| x l IH]; intros Hin acc; [contradiction |].
  cbn [for_each].
  destruct (Nat.ltb_spec 1 (count_occ String.string_dec cols x)) as [Hx | Hx].
  - unfold count_cell. now rewrite session_text_repeated.
  - destruct (count_cell_tallies session_state today cols w week_end r acc x
                Hx) as (acc' & -> & _).
    cbn. apply IH. destruct Hin as [-> | Hin]; [lia | exact Hin].
Qed.

(** X20.  Two session columns of one name.  When a name stands more than once
    among the session columns (two header names that differ by the spaces
    around them, which line 132 strips), the aggregation of a plan that has a
    row raises [ValueError] at the first row and no overview is
    computed. *)
Theorem aggregate_duplicate_raises rows cols (raw ws : list Z) session_state
    (today : Z) (col : string) :
  week_starts raw = Some ws -> length raw = length rows -> rows <> [] ->
  1 < count_occ String.string_dec cols col ->
  aggregate rows cols ws session_state today = Raise ValueError.
Proof.
  intros Hws Hlen Hrows Hcol.
  destruct rows as [| r rows]; [contradiction |].
  assert (Hw : is_Some (ws !! 0)).
  { apply lookup_lt_is_Some. rewrite (week_starts_length _ _ Hws), Hlen.
    cbn. lia. }
  destruct Hw as [week_start Hw].
  unfold aggregate, iterrows. cbn [length seq combine for_each].
  rewrite count_row_unfold, Hw.
  rewrite (count_cells_repeated session_state today cols 0 (week_start + 6)
             r col cols Hcol); [reflexivity |].
  apply (count_occ_In String.string_dec). lia.
Qed.

End RepeatedNames.

(** The header "Session 1", " Session 1" after the strip of line 132. *)
Lemma aggregate_duplicate_raises_witness :
  week_starts [8]%Z = Some [8]%Z /\
  1 < count_occ String.string_dec ["Session 1"; "Session 1"] "Session 1" /\
  aggregate [{["Session 1" := "Run 5km"]}] ["Session 1"; "Session 1"] [8]%Z
    ∅ 9%Z = Raise ValueError.
Proof.
  assert (Hrows : [{["Session 1" := "Run 5km"]} : gmap string string] <> [])
    by discriminate.
  assert (Hcol : 1 < count_occ String.string_dec ["Session 1"; "Session 1"]
                       "Session 1") by (vm_compute; lia).
  split; [reflexivity |]. split; [exact Hcol |].
  exact (aggregate_duplicate_raises [{["Session 1" := "Run 5km"]}]
           ["Session 1"; "Session 1"] [8]%Z [8]%Z ∅ 9%Z "Session 1"
           eq_refl eq_refl Hrows Hcol).
Defined.
